(** * Game.cpp: light population, resize handling and frame orchestration

    A shallow embedding of [Game::GenerateLights], [Game::OnResize],
    [Game::Draw], [Game::DrawPointLights] and [Game::DrawUI].

    - [float] values are IEEE-754 binary32 numbers ([spec_float] at
      precision 24, exponent bound 128), with the arithmetic of
      [SpecFloat] (round to nearest, ties to even).
    - The C library's [rand()] is a step function on an abstract
      generator state.
    - The Direct3D context, the shaders, the meshes, the sky and the
      sprite batch are collaborators: every call the code makes on them
      is recorded, in program order, in a list of commands. *)

From Stdlib Require Import String ZArith List Bool Arith Lia SpecFloat.
From Stdlib Require DecimalString.
Import ListNotations.

Set Implicit Arguments.

(** ** binary32 arithmetic *)
Module F32.

Definition prec : Z := 24.
Definition emax : Z := 128.

Definition t : Type := spec_float.

Definition add : t -> t -> t := SFadd prec emax.
Definition sub : t -> t -> t := SFsub prec emax.
Definition mul : t -> t -> t := SFmul prec emax.
Definition div : t -> t -> t := SFdiv prec emax.
Definition leb : t -> t -> bool := SFleb.

(** [(float)n] for an integer [n]. *)
Definition of_Z (n : Z) : t := binary_normalize prec emax n 0 false.

(** The literal [n / 10^k] with the suffix [f]: the binary32 number
    nearest to the decimal, which is the correctly rounded quotient of
    the two integers (both are exact in binary32 for the literals of
    this file). *)
Definition dec (n : Z) (k : nat) : t := div (of_Z n) (of_Z (10 ^ Z.of_nat k)).

Definition zero : t := S754_zero false.
Definition one : t := of_Z 1.

(** [lo <= x <= hi], false on a NaN. *)
Definition within (lo hi x : t) : bool := leb lo x && leb x hi.

End F32.

Abbreviation float := F32.t.

(** ** DirectXMath storage types *)
Record XMFLOAT3 := mkFloat3 { x3 : float; y3 : float; z3 : float }.

(** ** Lights (Lights.h) *)

(** The three type tags, [LIGHT_TYPE_DIRECTIONAL], [LIGHT_TYPE_POINT]
    and [LIGHT_TYPE_SPOT]. *)
Inductive LightType := LIGHT_TYPE_DIRECTIONAL | LIGHT_TYPE_POINT | LIGHT_TYPE_SPOT.

Definition LightType_eqb (a b : LightType) : bool :=
  match a, b with
  | LIGHT_TYPE_DIRECTIONAL, LIGHT_TYPE_DIRECTIONAL => true
  | LIGHT_TYPE_POINT, LIGHT_TYPE_POINT => true
  | LIGHT_TYPE_SPOT, LIGHT_TYPE_SPOT => true
  | _, _ => false
  end.

(** The fields of [Light] that Game.cpp reads or writes. *)
Record Light := mkLight {
  Type_ : LightType;
  Direction : XMFLOAT3;
  Range : float;
  Position : XMFLOAT3;
  Intensity : float;
  Color : XMFLOAT3
}.

Definition float3_zero : XMFLOAT3 := mkFloat3 F32.zero F32.zero F32.zero.

(** [Light l = {};] : every field zero, the tag being 0. *)
Definition Light_zero : Light :=
  mkLight LIGHT_TYPE_DIRECTIONAL float3_zero F32.zero float3_zero F32.zero float3_zero.

Definition set_Type (t : LightType) (l : Light) : Light :=
  mkLight t (Direction l) (Range l) (Position l) (Intensity l) (Color l).
Definition set_Direction (d : XMFLOAT3) (l : Light) : Light :=
  mkLight (Type_ l) d (Range l) (Position l) (Intensity l) (Color l).
Definition set_Range (r : float) (l : Light) : Light :=
  mkLight (Type_ l) (Direction l) r (Position l) (Intensity l) (Color l).
Definition set_Position (p : XMFLOAT3) (l : Light) : Light :=
  mkLight (Type_ l) (Direction l) (Range l) p (Intensity l) (Color l).
Definition set_Intensity (i : float) (l : Light) : Light :=
  mkLight (Type_ l) (Direction l) (Range l) (Position l) i (Color l).
Definition set_Color (c : XMFLOAT3) (l : Light) : Light :=
  mkLight (Type_ l) (Direction l) (Range l) (Position l) (Intensity l) c.

(** ** The random source *)

(** [RAND_MAX] of the Microsoft C runtime, the runtime of the Direct3D 11
    toolchain this file is built with. *)
Definition RAND_MAX : Z := 32767.

(** Computations that draw from [rand()]: a state monad over the
    generator's state. *)
Definition Rand (S A : Type) : Type := S -> A * S.

Definition ret {S A} (a : A) : Rand S A := fun s => (a, s).
Definition bind {S A B} (m : Rand S A) (k : A -> Rand S B) : Rand S B :=
  fun s => let (a, s') := m s in k a s'.

Notation "x <- m ;; k" := (bind m (fun x => k))
  (at level 61, m at next level, right associativity).

(** The arithmetic of the macro
    [(float)rand() / RAND_MAX * (max - min) + min] on one draw [r]. *)
Definition RandomRange_of (r : Z) (min max : float) : float :=
  F32.add (F32.mul (F32.div (F32.of_Z r) (F32.of_Z RAND_MAX)) (F32.sub max min)) min.

(** The same macro at integer arguments, as in [RandomRange(0, 1)]:
    [max - min] is an [int] subtraction, converted to [float] by the
    product, and [min] is converted by the sum. *)
Definition RandomRangeInt_of (r : Z) (min max : Z) : float :=
  F32.add (F32.mul (F32.div (F32.of_Z r) (F32.of_Z RAND_MAX)) (F32.of_Z (max - min)))
          (F32.of_Z min).

Section Generator.

Variable RngState : Type.
(** One call of [rand()]. *)
Variable rand : RngState -> Z * RngState.

Definition RandomRange (min max : float) : Rand RngState float :=
  r <- rand ;; ret (RandomRange_of r min max).

Definition RandomRangeInt (min max : Z) : Rand RngState float :=
  r <- rand ;; ret (RandomRangeInt_of r min max).

(** [XMFLOAT3(a, b, c)] with three draws. The order in which C++
    evaluates the three arguments is unspecified; they are drawn here
    in the order written. *)
Definition RandomFloat3 (a b c : Rand RngState float) : Rand RngState XMFLOAT3 :=
  x <- a ;; y <- b ;; z <- c ;; ret (mkFloat3 x y z).

(** The body of the [while] loop of [GenerateLights]: one point light. *)
Definition RandomPointLight : Rand RngState Light :=
  let point := Light_zero in
  let point := set_Type LIGHT_TYPE_POINT point in
  pos <- RandomFloat3 (RandomRange (F32.dec (-100) 1) (F32.dec 100 1))
                      (RandomRange (F32.dec (-50) 1) (F32.dec 50 1))
                      (RandomRange (F32.dec (-100) 1) (F32.dec 100 1)) ;;
  let point := set_Position pos point in
  col <- RandomFloat3 (RandomRangeInt 0 1) (RandomRangeInt 0 1) (RandomRangeInt 0 1) ;;
  let point := set_Color col point in
  rng <- RandomRange (F32.dec 50 1) (F32.dec 100 1) ;;
  let point := set_Range rng point in
  int <- RandomRange (F32.dec 1 1) (F32.dec 30 1) ;;
  let point := set_Intensity int point in
  ret point.


(** [lights.push_back(l)] *)
Definition push_back (lights : list Light) (l : Light) : list Light := lights ++ [l].

(** [while (lights.size() < lightCount) { ...; lights.push_back(point); }]
    Every iteration makes the collection one longer, so [lightCount]
    iterations are enough for the guard to fail; [fuel] counts them. *)
Fixpoint fill_lights (fuel lightCount : nat) (lights : list Light)
  : Rand RngState (list Light) :=
  match fuel with
  | O => ret lights
  | S fuel' =>
      if length lights <? lightCount then
        point <- RandomPointLight ;;
        fill_lights fuel' lightCount (push_back lights point)
      else ret lights
  end.

End Generator.

(** The three directional lights of [GenerateLights]. *)
Definition dir1 : Light :=
  let dir1 := Light_zero in
  let dir1 := set_Type LIGHT_TYPE_DIRECTIONAL dir1 in
  let dir1 := set_Direction (mkFloat3 (F32.of_Z 1) (F32.of_Z (-1)) (F32.of_Z 1)) dir1 in
  let dir1 := set_Color (mkFloat3 (F32.dec 8 1) (F32.dec 8 1) (F32.dec 8 1)) dir1 in
  set_Intensity (F32.dec 10 1) dir1.

Definition dir2 : Light :=
  let dir2 := Light_zero in
  let dir2 := set_Type LIGHT_TYPE_DIRECTIONAL dir2 in
  let dir2 := set_Direction (mkFloat3 (F32.of_Z (-1)) (F32.dec (-25) 2) (F32.of_Z 0)) dir2 in
  let dir2 := set_Color (mkFloat3 (F32.dec 2 1) (F32.dec 2 1) (F32.dec 2 1)) dir2 in
  set_Intensity (F32.dec 10 1) dir2.

Definition dir3 : Light :=
  let dir3 := Light_zero in
  let dir3 := set_Type LIGHT_TYPE_DIRECTIONAL dir3 in
  let dir3 := set_Direction (mkFloat3 (F32.of_Z 0) (F32.of_Z (-1)) (F32.of_Z 1)) dir3 in
  let dir3 := set_Color (mkFloat3 (F32.dec 2 1) (F32.dec 2 1) (F32.dec 2 1)) dir3 in
  set_Intensity (F32.dec 10 1) dir3.

(** ** The collaborators of [Game] *)

(** Shaders and meshes are named by the file they are loaded from. *)
Definition Shader : Type := string.
Definition Mesh : Type := string.

(** What [Game] passes to the [Camera] constructor; [aspectRatio] is the
    ratio the projection matrix was last built with. *)
Record Camera := mkCamera {
  camPosition : XMFLOAT3;
  moveSpeed : float;
  mouseLookSpeed : float;
  aspectRatio : float
}.

(** Modelled from the spec: Camera.cpp is not among the sources. The
    camera "exposes ... an aspect-ratio update operation", and on a
    surface-size change the projection matrix is recomputed "using the
    new width/height aspect ratio": the call stores the ratio it is
    given. *)
Definition UpdateProjectionMatrix (aspect : float) (c : Camera) : Camera :=
  mkCamera (camPosition c) (moveSpeed c) (mouseLookSpeed c) aspect.

(** [XMMATRIX] values are kept as the DirectXMath expression that builds
    them; [XMStoreFloat4x4] stores the value unchanged. *)
Inductive XMMATRIX :=
| XMMatrixIdentity
| XMMatrixScaling (sx sy sz : float)
| XMMatrixTranslation (x y z : float)
| XMMatrixMultiply (a b : XMMATRIX)
| XMMatrixTranspose (m : XMMATRIX)
| XMMatrixInverse (m : XMMATRIX)
| GetView (c : Camera)
| GetProjection (c : Camera).

Record Material := mkMaterial {
  pixelShader : Shader;
  vertexShader : Shader
}.

Record GameEntity := mkEntity {
  mesh : Mesh;
  material : Material;
  position : XMFLOAT3
}.

Record Sky := mkSky { specularMipLevels : Z }.

(** The members of [Game] (and of its base [DXCore]) that the embedded
    functions use. [lightCount] is declared in Game.h; it is a number of
    records, compared with [lights.size()], and is a natural number
    here. [camera] is a shared pointer that is null until [Init] has
    made the camera, and that [OnResize] tests. The assets set by
    [LoadAssetsAndCreateEntities] are present. *)
Record Game := mkGame {
  width : Z;
  height : Z;
  camera : option Camera;
  sky : Sky;
  lightCount : nat;
  lights : list Light;
  entities : list GameEntity;
  lightMesh : Mesh;
  lightVS : Shader;
  lightPS : Shader
}.

Definition set_lights (ls : list Light) (g : Game) : Game :=
  mkGame (width g) (height g) (camera g) (sky g) (lightCount g) ls
         (entities g) (lightMesh g) (lightVS g) (lightPS g).
Definition set_lightCount (n : nat) (g : Game) : Game :=
  mkGame (width g) (height g) (camera g) (sky g) n (lights g)
         (entities g) (lightMesh g) (lightVS g) (lightPS g).
Definition set_camera (c : option Camera) (g : Game) : Game :=
  mkGame (width g) (height g) c (sky g) (lightCount g) (lights g)
         (entities g) (lightMesh g) (lightVS g) (lightPS g).

Section GameRandom.

Variable RngState : Type.
Variable rand : RngState -> Z * RngState.

(** [Game::GenerateLights] *)
Definition GenerateLights (g : Game) : Rand RngState Game :=
  (* lights.clear() *)
  let ls := @nil Light in
  let ls := push_back ls dir1 in
  let ls := push_back ls dir2 in
  let ls := push_back ls dir3 in
  ls <- fill_lights rand (lightCount g) (lightCount g) ls ;;
  ret (set_lights ls g).

(** The end of [Game::Init], after the assets are loaded: the light
    count, the lights and the camera. *)
Definition Init (g : Game) : Rand RngState Game :=
  let g := set_lightCount 32 g in
  g <- GenerateLights g ;;
  let cam := mkCamera (mkFloat3 (F32.of_Z 0) (F32.of_Z 0) (F32.of_Z (-10)))
                      (F32.of_Z 3) (F32.of_Z 1)
                      (F32.div (F32.of_Z (width g)) (F32.of_Z (height g))) in
  ret (set_camera (Some cam) g).

End GameRandom.

(** The calls [Game::OnResize] makes outside [Game]. *)
Inductive ResizeCall :=
| DXCore_OnResize
| Camera_UpdateProjectionMatrix (aspect : float).

(** [Game::OnResize]: the state it leaves and the calls it made. The
    window procedure has stored the new [width] and [height] before the
    call. *)
Definition OnResize (g : Game) : Game * list ResizeCall :=
  let calls := [DXCore_OnResize] in
  match camera g with
  | Some c =>
      let aspect := F32.div (F32.of_Z (width g)) (F32.of_Z (height g)) in
      (set_camera (Some (UpdateProjectionMatrix aspect c)) g,
       calls ++ [Camera_UpdateProjectionMatrix aspect])
  | None => (g, calls)
  end.

(** The window reports a client area of [w] by [h]. *)
Definition set_size (w h : Z) (g : Game) : Game :=
  mkGame w h (camera g) (sky g) (lightCount g) (lights g)
         (entities g) (lightMesh g) (lightVS g) (lightPS g).

(** ** The calls a frame makes on its collaborators *)

Definition BlendState : Type := string.
Definition DepthStencilState : Type := string.

Definition D3D11_CLEAR_DEPTH : Z := 1.
Definition D3D11_CLEAR_STENCIL : Z := 2.

Inductive Cmd :=
(* ID3D11DeviceContext *)
| ClearRenderTargetView (r g b a : float)
| ClearDepthStencilView (flags : Z) (depth : float) (stencil : Z)
| OMSetBlendState (state : option BlendState) (factor : option (list float)) (mask : Z)
| OMSetDepthStencilState (state : option DepthStencilState) (stencilRef : Z)
| OMSetRenderTargets
(* ISimpleShader *)
| SetShader (sh : Shader)
| SetData (sh : Shader) (name : string) (data : list Light)
| SetInt (sh : Shader) (name : string) (v : Z)
| SetFloat3 (sh : Shader) (name : string) (v : XMFLOAT3)
| SetMatrix4x4 (sh : Shader) (name : string) (m : XMMATRIX)
| CopyBufferData (sh : Shader) (name : string)
| CopyAllBufferData (sh : Shader)
(* GameEntity, Mesh, Sky *)
| GameEntity_Draw (ge : GameEntity) (c : Camera)
| SetBuffersAndDraw (m : Mesh)
| Sky_Draw (c : Camera)
(* SpriteBatch, SpriteFont *)
| SpriteBatch_Begin
| DrawString (text : string) (x y : float)
| SpriteBatch_End
(* ImGui, swap chain *)
| ImGui_Render
| ImGui_ImplDX11_RenderDrawData
| Present (syncInterval flags : Z).

(** A frame either runs to its end, with the calls it made, or stops at
    an access the language leaves undefined: a null [camera], or an
    index past the end of [lights]. *)
Definition Frame : Type := option (list Cmd).

Definition seqF (a b : Frame) : Frame :=
  match a with
  | Some ta => match b with Some tb => Some (ta ++ tb) | None => None end
  | None => None
  end.

Infix ";;;" := seqF (at level 62, right associativity).

(** [lights[i]]: defined for [i < lights.size()] only. *)
Definition lights_at (g : Game) (i : nat) : option Light := nth_error (lights g) i.

(** [(void* )(&lights[0]), sizeof(Light) * lightCount]: the first
    [lightCount] records of the collection. *)
Definition lights_block (g : Game) : option (list Light) :=
  match lights_at g 0 with
  | Some _ =>
      if lightCount g <=? length (lights g)
      then Some (firstn (lightCount g) (lights g)) else None
  | None => None
  end.

Definition scale3 (v : XMFLOAT3) (k : float) : XMFLOAT3 :=
  mkFloat3 (F32.mul (x3 v) k) (F32.mul (y3 v) k) (F32.mul (z3 v) k).

(** The body of the [for] loop of [DrawPointLights] for a light that is
    not skipped. *)
Definition draw_light_marker (g : Game) (light : Light) : list Cmd :=
  let scale := F32.div (Range light) (F32.dec 200 1) in
  let rotMat := XMMatrixIdentity in
  let scaleMat := XMMatrixScaling scale scale scale in
  let transMat := XMMatrixTranslation (x3 (Position light)) (y3 (Position light))
                                      (z3 (Position light)) in
  let worldMat := XMMatrixMultiply (XMMatrixMultiply scaleMat rotMat) transMat in
  let world := worldMat in
  let worldInvTrans := XMMatrixInverse (XMMatrixTranspose worldMat) in
  let finalColor := scale3 (Color light) (Intensity light) in
  [ SetMatrix4x4 (lightVS g) "world" world;
    SetMatrix4x4 (lightVS g) "worldInverseTranspose" worldInvTrans;
    SetFloat3 (lightPS g) "Color" finalColor;
    CopyAllBufferData (lightVS g);
    CopyAllBufferData (lightPS g);
    SetBuffersAndDraw (lightMesh g) ].

(** [for (int i = 0; i < lightCount; i++)], entered at index [i] with
    [n] iterations left. *)
Fixpoint DrawPointLights_loop (g : Game) (n i : nat) : Frame :=
  match n with
  | O => Some []
  | S n' =>
      match lights_at g i with
      | None => None
      | Some light =>
          if negb (LightType_eqb (Type_ light) LIGHT_TYPE_POINT)
          then DrawPointLights_loop g n' (S i)          (* continue *)
          else Some (draw_light_marker g light) ;;; DrawPointLights_loop g n' (S i)
      end
  end.

(** [Game::DrawPointLights] *)
Definition DrawPointLights (g : Game) : Frame :=
  match camera g with
  | None => None
  | Some cam =>
      Some [ SetShader (lightVS g);
             SetShader (lightPS g);
             SetMatrix4x4 (lightVS g) "view" (GetView cam);
             SetMatrix4x4 (lightVS g) "projection" (GetProjection cam) ]
      ;;; DrawPointLights_loop g (lightCount g) 0
  end.

(** [Game::DrawUI] *)
Definition DrawUI : list Cmd :=
  let h := F32.dec 100 1 in
  let h' := F32.of_Z 150 in
  let at_ (h : float) (dy : Z) := F32.add h (F32.of_Z dy) in
  let x := F32.of_Z 10 in
  [ SpriteBatch_Begin;
    DrawString "Controls:" x h;
    DrawString " (WASD, X, Space) Move camera" x (at_ h 20%Z);
    DrawString " (Left Click & Drag) Rotate camera" x (at_ h 40%Z);
    DrawString " (Left Shift) Hold to speed up camera" x (at_ h 60%Z);
    DrawString " (Left Ctrl) Hold to slow down camera" x (at_ h 80%Z);
    DrawString " (TAB) Randomize lights" x (at_ h 100%Z);
    DrawString "Scene Details:" x h';
    DrawString " Top: PBR materials" x (at_ h' 20%Z);
    DrawString " Bottom: Non-PBR materials" x (at_ h' 40%Z);
    SpriteBatch_End;
    OMSetBlendState None None 0xFFFFFFFF;
    OMSetDepthStencilState None 0 ].

(** The body of the entity loop of [Draw]. *)
Definition draw_entity (g : Game) (ge : GameEntity) : Frame :=
  let ps := pixelShader (material ge) in
  match lights_block g, camera g with
  | Some block, Some cam =>
      Some [ SetData ps "lights" block;
             SetInt ps "lightCount" (Z.of_nat (lightCount g));
             SetFloat3 ps "cameraPosition" (camPosition cam);
             SetInt ps "SpecIBLTotalMipLevels" (specularMipLevels (sky g));
             CopyBufferData ps "perFrame";
             GameEntity_Draw ge cam ]
  | _, _ => None
  end.

(** [for (auto& ge : entities)] *)
Fixpoint draw_entities (g : Game) (ges : list GameEntity) : Frame :=
  match ges with
  | [] => Some []
  | ge :: ges' => draw_entity g ge ;;; draw_entities g ges'
  end.

(** [sky->Draw(camera)] takes the camera's matrices. *)
Definition draw_sky (g : Game) : Frame :=
  match camera g with
  | Some cam => Some [ Sky_Draw cam ]
  | None => None
  end.

(** [Game::Draw] *)
Definition Draw (g : Game) : Frame :=
  Some [ ClearRenderTargetView (F32.of_Z 0) (F32.of_Z 0) (F32.of_Z 0) (F32.of_Z 1);
         ClearDepthStencilView (Z.lor D3D11_CLEAR_DEPTH D3D11_CLEAR_STENCIL) (F32.dec 10 1) 0 ]
  ;;; draw_entities g (entities g)
  ;;; DrawPointLights g
  ;;; draw_sky g
  ;;; Some DrawUI
  ;;; Some [ ImGui_Render; ImGui_ImplDX11_RenderDrawData; Present 0 0; OMSetRenderTargets ].

(** ** The scene of [LoadAssetsAndCreateEntities] *)

Definition sphereMesh : Mesh := "../../Assets/Models/sphere.obj"%string.
Definition vertexShader_cso : Shader := "VertexShader.cso"%string.
Definition pixelShaderPBR_cso : Shader := "PixelShaderPBR.cso"%string.
Definition solidColorPS_cso : Shader := "SolidColorPS.cso"%string.

(** The six PBR materials share one shader pair; their textures play no
    part in the functions embedded here. *)
Definition materialPBR : Material := mkMaterial pixelShaderPBR_cso vertexShader_cso.

Definition sphere_at (x y z : Z) : GameEntity :=
  mkEntity sphereMesh materialPBR (mkFloat3 (F32.of_Z x) (F32.of_Z y) (F32.of_Z z)).

(** The state [Game] is in once its constructor and
    [LoadAssetsAndCreateEntities] have run, for the sky that was built. *)
Definition LoadAssetsAndCreateEntities (sk : Sky) : Game :=
  mkGame 1280 720 None sk 0 []
         [ sphere_at (-6) 2 0; sphere_at (-4) 2 0; sphere_at (-2) 2 0;
           sphere_at 0 2 0; sphere_at 2 2 0; sphere_at 4 2 0 ]
         sphereMesh vertexShader_cso solidColorPS_cso.

(** ** The state of the pipeline *)

(** The output-merger stage: what [OMSetBlendState] and
    [OMSetDepthStencilState] set. *)
Record OMState := mkOM {
  om_blend : option BlendState;
  om_blendFactor : option (list float);
  om_sampleMask : Z;
  om_depthStencil : option DepthStencilState;
  om_stencilRef : Z
}.

(** Direct3D's defaults: no state object bound, the default blend
    factor, every sample enabled. *)
Definition OM_default : OMState := mkOM None None 0xFFFFFFFF None 0.

Definition RasterizerState : Type := string.

(** The device context's state: the output-merger stage, and the
    rasterizer state ([RSSetState]; none bound is the default), which
    [Game] never sets. *)
Record PipelineState := mkPipeline {
  ps_om : OMState;
  ps_rasterizer : option RasterizerState
}.

Definition Pipeline_default : PipelineState := mkPipeline OM_default None.

Section Pipeline.

(** What a call on a collaborator (sprite batch, mesh, sky, ...) does
    to the pipeline's state is not known to [Game]. *)
Variable collaborator : Cmd -> PipelineState -> PipelineState.

Definition exec (p : PipelineState) (c : Cmd) : PipelineState :=
  match c with
  | OMSetBlendState st factor mask =>
      mkPipeline (mkOM st factor mask (om_depthStencil (ps_om p)) (om_stencilRef (ps_om p)))
                 (ps_rasterizer p)
  | OMSetDepthStencilState st ref =>
      mkPipeline (mkOM (om_blend (ps_om p)) (om_blendFactor (ps_om p))
                       (om_sampleMask (ps_om p)) st ref)
                 (ps_rasterizer p)
  | _ => collaborator c p
  end.

Definition run (t : list Cmd) (p : PipelineState) : PipelineState := fold_left exec t p.

End Pipeline.

(** A sample collaborator: a sprite batch that, when it ends, binds its
    own blend, depth/stencil and rasterizer states to draw what was
    batched; the other calls leave the state alone. *)
Definition spritebatch (c : Cmd) (p : PipelineState) : PipelineState :=
  match c with
  | SpriteBatch_End =>
      mkPipeline (mkOM (Some "AlphaBlend"%string) None 0xFFFFFFFF
                       (Some "DepthNone"%string) 0)
                 (Some "CullCounterClockwise"%string)
  | _ => p
  end.

(** ** Reading a frame's record *)

(** The sphere draws of a record, each with the ["world"] matrix and the
    ["Color"] that were last pushed before it. *)
Fixpoint sphere_draws (world : option XMMATRIX) (color : option XMFLOAT3) (t : list Cmd)
  : list (Mesh * option XMMATRIX * option XMFLOAT3) :=
  match t with
  | [] => []
  | SetMatrix4x4 _ name m :: t' =>
      if String.eqb name "world" then sphere_draws (Some m) color t'
      else sphere_draws world color t'
  | SetFloat3 _ name v :: t' =>
      if String.eqb name "Color" then sphere_draws world (Some v) t'
      else sphere_draws world color t'
  | SetBuffersAndDraw m :: t' => (m, world, color) :: sphere_draws world color t'
  | _ :: t' => sphere_draws world color t'
  end.

Definition is_point (l : Light) : bool := LightType_eqb (Type_ l) LIGHT_TYPE_POINT.

(** What the marker of a point light is drawn with. *)
Definition marker (g : Game) (l : Light) : Mesh * option XMMATRIX * option XMFLOAT3 :=
  let s := F32.div (Range l) (F32.dec 200 1) in
  (lightMesh g,
   Some (XMMatrixMultiply
           (XMMatrixMultiply (XMMatrixScaling s s s) XMMatrixIdentity)
           (XMMatrixTranslation (x3 (Position l)) (y3 (Position l)) (z3 (Position l)))),
   Some (mkFloat3 (F32.mul (x3 (Color l)) (Intensity l))
                  (F32.mul (y3 (Color l)) (Intensity l))
                  (F32.mul (z3 (Color l)) (Intensity l)))).

(** The passes of a frame, in the order of the cycle. *)
Inductive Pass := Clear | EntityPass | LightMarkerPass | EnvironmentPass
                | OverlayPass | DebugUIPass | PresentPass.

(** The pass a clear, a draw or the present belongs to; the calls that
    only push constants or set state belong to none. *)
Definition pass_of (c : Cmd) : option Pass :=
  match c with
  | ClearRenderTargetView _ _ _ _ | ClearDepthStencilView _ _ _ => Some Clear
  | GameEntity_Draw _ _ => Some EntityPass
  | SetBuffersAndDraw _ => Some LightMarkerPass
  | Sky_Draw _ => Some EnvironmentPass
  | SpriteBatch_Begin | DrawString _ _ _ | SpriteBatch_End => Some OverlayPass
  | ImGui_Render | ImGui_ImplDX11_RenderDrawData => Some DebugUIPass
  | Present _ _ => Some PresentPass
  | _ => None
  end.

Definition passes (t : list Cmd) : list Pass :=
  flat_map (fun c => match pass_of c with Some p => [p] | None => [] end) t.

Definition is_draw (c : Cmd) : bool :=
  match pass_of c with
  | Some Clear | Some PresentPass | None => false
  | Some _ => true
  end.

Definition is_clear (c : Cmd) : bool :=
  match pass_of c with Some Clear => true | _ => false end.

(** The frame-scope constants: the pushes of ["lights"], ["lightCount"],
    ["cameraPosition"] and ["SpecIBLTotalMipLevels"]. *)
Definition is_frame_push (c : Cmd) : bool :=
  match c with
  | SetData _ _ _ => true
  | SetInt _ _ _ => true
  | SetFloat3 _ name _ => String.eqb name "cameraPosition"
  | CopyBufferData _ _ => true
  | _ => false
  end.

(** The calls of one iteration of the entity loop. *)
Definition entity_calls (g : Game) (cam : Camera) (ge : GameEntity) : list Cmd :=
  let ps := pixelShader (material ge) in
  [ SetData ps "lights" (firstn (lightCount g) (lights g));
    SetInt ps "lightCount" (Z.of_nat (lightCount g));
    SetFloat3 ps "cameraPosition" (camPosition cam);
    SetInt ps "SpecIBLTotalMipLevels" (specularMipLevels (sky g));
    CopyBufferData ps "perFrame";
    GameEntity_Draw ge cam ].

(** A frame can be drawn: the camera exists and the first [lightCount]
    records of [lights] exist. *)
Definition Drawable (g : Game) : Prop :=
  camera g <> None /\ lights g <> [] /\ lightCount g <= length (lights g).

(** ** A sample random source

    A linear congruential generator in the style of the C runtime's:
    the state is a 32-bit word, a draw is 15 of its bits. *)
Definition lcg_rand (s : Z) : Z * Z :=
  let s' := ((s * 214013 + 2531011) mod 2 ^ 32)%Z in
  (Z.land (Z.shiftr s' 16) 32767, s').

(** The number of lights with a given tag. *)
Definition count_type (t : LightType) (ls : list Light) : nat :=
  length (filter (fun l => LightType_eqb (Type_ l) t) ls).

(** The field bounds of a generated point light. *)
Definition point_in_bounds (l : Light) : bool :=
  F32.within (F32.dec (-100) 1) (F32.dec 100 1) (x3 (Position l)) &&
  F32.within (F32.dec (-50) 1) (F32.dec 50 1) (y3 (Position l)) &&
  F32.within (F32.dec (-100) 1) (F32.dec 100 1) (z3 (Position l)) &&
  F32.within (F32.of_Z 0) (F32.of_Z 1) (x3 (Color l)) &&
  F32.within (F32.of_Z 0) (F32.of_Z 1) (y3 (Color l)) &&
  F32.within (F32.of_Z 0) (F32.of_Z 1) (z3 (Color l)) &&
  F32.within (F32.dec 50 1) (F32.dec 100 1) (Range l) &&
  F32.within (F32.dec 1 1) (F32.dec 30 1) (Intensity l).

(** The five uses of the macro in [GenerateLights], on one draw [r]:
    each result is within the bounds the macro was given. *)
Definition draw_in_ranges (r : Z) : bool :=
  F32.within (F32.dec (-100) 1) (F32.dec 100 1)
             (RandomRange_of r (F32.dec (-100) 1) (F32.dec 100 1)) &&
  F32.within (F32.dec (-50) 1) (F32.dec 50 1)
             (RandomRange_of r (F32.dec (-50) 1) (F32.dec 50 1)) &&
  F32.within (F32.of_Z 0) (F32.of_Z 1) (RandomRangeInt_of r 0 1) &&
  F32.within (F32.dec 50 1) (F32.dec 100 1)
             (RandomRange_of r (F32.dec 50 1) (F32.dec 100 1)) &&
  F32.within (F32.dec 1 1) (F32.dec 30 1)
             (RandomRange_of r (F32.dec 1 1) (F32.dec 30 1)).

(** [ok] at [r], [r + 1], ..., [r + n - 1]. *)
Fixpoint all_from (ok : Z -> bool) (n : nat) (r : Z) : bool :=
  match n with
  | O => true
  | S n' => ok r && all_from ok n' (r + 1)
  end.

(** [draw_in_ranges] with the quotient [(float)r / RAND_MAX] computed
    once and the constants [max - min] already evaluated. *)
Definition affine_within (q d lo hi : float) : bool :=
  F32.within lo hi (F32.add (F32.mul q d) lo).

Definition draw_in_ranges_shared (r : Z) : bool :=
  let q := F32.div (F32.of_Z r) (S754_finite false 16776704 (-9)) in
  affine_within q (S754_finite false 10485760 (-19))
                  (S754_finite true 10485760 (-20)) (S754_finite false 10485760 (-20)) &&
  affine_within q (S754_finite false 10485760 (-20))
                  (S754_finite true 10485760 (-21)) (S754_finite false 10485760 (-21)) &&
  affine_within q (S754_finite false 8388608 (-23))
                  (S754_zero false) (S754_finite false 8388608 (-23)) &&
  affine_within q (S754_finite false 10485760 (-21))
                  (S754_finite false 10485760 (-21)) (S754_finite false 10485760 (-20)) &&
  affine_within q (S754_finite false 12163482 (-22))
                  (S754_finite false 13421773 (-27)) (S754_finite false 12582912 (-22)).

(** The calls of a frame before and after its loops. *)
Definition frame_clear : list Cmd :=
  [ ClearRenderTargetView (F32.of_Z 0) (F32.of_Z 0) (F32.of_Z 0) (F32.of_Z 1);
    ClearDepthStencilView 3 (F32.of_Z 1) 0 ].

Definition frame_end : list Cmd :=
  [ ImGui_Render; ImGui_ImplDX11_RenderDrawData; Present 0 0; OMSetRenderTargets ].

(** The calls of [DrawPointLights] for a camera: the set-up, then the
    markers of the point lights among the first [lightCount] records. *)
Definition light_marker_calls (g : Game) (cam : Camera) : list Cmd :=
  [ SetShader (lightVS g); SetShader (lightPS g);
    SetMatrix4x4 (lightVS g) "view" (GetView cam);
    SetMatrix4x4 (lightVS g) "projection" (GetProjection cam) ] ++
  flat_map (draw_light_marker g) (filter is_point (firstn (lightCount g) (lights g))).

(** ** Sample states *)

(** The scene as loaded, for a sky with five specular mip levels; the
    light count is still the constructor's 0. *)
Definition scene : Game := LoadAssetsAndCreateEntities (mkSky 5).

(** The game once [Init] has run, for the sample source seeded with 1. *)
Definition running : Game := fst (Init lcg_rand scene 1%Z).

(** ** The debug UI and the keyboard

    ImGui and the input manager are collaborators. What the user does
    in one frame is a record of answers: whether a header or a tree node
    is open, the value a widget leaves in the variable it edits, what
    the camera's own update does, and the two keys [Update] asks for.
    A widget is named by the tree node it is in and by its label. *)
Record UserInput := mkInput {
  Checkbox : string -> bool -> bool;
  CollapsingHeader : string -> bool;
  TreeNode : string -> bool;
  DragFloat : string -> string -> float -> float -> float -> float -> float;
  DragFloat3 : string -> string -> XMFLOAT3 -> float -> float -> float -> XMFLOAT3;
  ColorEdit3 : string -> string -> XMFLOAT3 -> XMFLOAT3;
  Camera_Update : Camera -> Camera;
  KeyDown_ESCAPE : bool;
  KeyPress_TAB : bool
}.

(** [std::to_string] of a non-negative [int]. *)
Definition to_string (n : nat) : string :=
  DecimalString.NilEmpty.string_of_uint (Nat.to_uint n).

(** [Game::LightsImGui]: the light the widgets leave. The text that
    names the light's type is display only. *)
Definition LightsImGui (ui : UserInput) (light : Light) (lightIndex : nat) : Light :=
  let lightName := ("Light " ++ to_string lightIndex)%string in
  if TreeNode ui lightName then
    let '(dir, range, position, spotFalloff) :=
      match Type_ light with
      | LIGHT_TYPE_DIRECTIONAL => (true, false, false, false)
      | LIGHT_TYPE_POINT => (false, true, true, false)
      | LIGHT_TYPE_SPOT => (true, true, true, true)
      end in
    let light :=
      if (dir : bool) then
        set_Direction (DragFloat3 ui lightName "Direction" (Direction light)
                                  (F32.dec 1 1) (F32.dec (-314) 2) (F32.dec 314 2)) light
      else light in
    let light :=
      if (range : bool) then
        set_Range (DragFloat ui lightName "Range" (Range light)
                             (F32.dec 1 1) (F32.dec 1 1) (F32.dec 10000 1)) light
      else light in
    let light :=
      if (position : bool) then
        set_Position (DragFloat3 ui lightName "Position" (Position light)
                                 (F32.dec 1 1) (F32.dec (-100) 1) (F32.dec 100 1)) light
      else light in
    let light :=
      set_Intensity (DragFloat ui lightName "Intensity" (Intensity light)
                               (F32.dec 1 1) (F32.dec 1 1) (F32.dec 1000 1)) light in
    let light := set_Color (ColorEdit3 ui lightName "Color" (Color light)) light in
    let light :=
      if (spotFalloff : bool) then
        set_Range (DragFloat ui lightName "Spot Falloff" (Range light)
                             (F32.dec 1 1) (F32.dec 1 1) (F32.dec 100 1)) light
      else light in
    light
  else light.

(** [for (int i = 0; i < lights.size(); i++) LightsImGui(&lights[i], i);]
    entered at index [i]. *)
Fixpoint LightsImGui_loop (ui : UserInput) (i : nat) (ls : list Light) : list Light :=
  match ls with
  | [] => []
  | light :: ls' => LightsImGui ui light i :: LightsImGui_loop ui (S i) ls'
  end.

(** Modelled from the spec: Transform.cpp is not among the sources. A
    transform holds "position (3 scalars), rotation ..., scale (3
    scalars)"; the setters store what they are given. [GameEntity] keeps
    the position; the scale of the entity at each index is kept beside
    the game. *)
Record Transform := mkTransform {
  GetPosition : XMFLOAT3;
  GetScale : XMFLOAT3
}.

Definition SetPosition (p : XMFLOAT3) (tr : Transform) : Transform :=
  mkTransform p (GetScale tr).
Definition SetScale (s : XMFLOAT3) (tr : Transform) : Transform :=
  mkTransform (GetPosition tr) s.

(** [Game::EntityImGui], on the entity's transform. *)
Definition EntityImGui (ui : UserInput) (tr : Transform) (entityIndex : nat) : Transform :=
  let entityName := ("Entity " ++ to_string entityIndex)%string in
  if TreeNode ui entityName then
    let p := GetPosition tr in
    let p := DragFloat3 ui entityName "Position" p
                        (F32.dec 5 2) (F32.dec (-100) 1) (F32.dec 100 1) in
    let tr := SetPosition p tr in
    let s := GetScale tr in
    let s := DragFloat3 ui entityName "Scale" s
                        (F32.dec 5 2) (F32.dec 1 2) (F32.dec 1000 1) in
    SetScale s tr
  else tr.

(** The game with what [Update] uses besides: the scale of each entity's
    transform, the three window flags of Game.h, and whether [Quit] has
    been called. *)
Record Session := mkSession {
  game : Game;
  scales : nat -> XMFLOAT3;
  showWorldEditor : bool;
  showInfoWindow : bool;
  showDemoWindow : bool;
  quit : bool
}.

Definition set_game (g : Game) (ses : Session) : Session :=
  mkSession g (scales ses) (showWorldEditor ses) (showInfoWindow ses)
            (showDemoWindow ses) (quit ses).

Definition set_entities (ges : list GameEntity) (g : Game) : Game :=
  mkGame (width g) (height g) (camera g) (sky g) (lightCount g) (lights g)
         ges (lightMesh g) (lightVS g) (lightPS g).

(** [for (int i = 0; i < entities.size(); i++) EntityImGui(entities[i].get(), i);]
    entered at index [i]: the entities and the scales it leaves. *)
Fixpoint EntityImGui_loop (ui : UserInput) (i : nat) (ges : list GameEntity)
         (sc : nat -> XMFLOAT3) : list GameEntity * (nat -> XMFLOAT3) :=
  match ges with
  | [] => ([], sc)
  | ge :: ges' =>
      let tr := EntityImGui ui (mkTransform (position ge) (sc i)) i in
      let ge := mkEntity (mesh ge) (material ge) (GetPosition tr) in
      let sc := fun j => if j =? i then GetScale tr else sc j in
      let (ges'', sc) := EntityImGui_loop ui (S i) ges' sc in
      (ge :: ges'', sc)
  end.

(** [Game::UpdateImGuiWorldEditor] *)
Definition UpdateImGuiWorldEditor (ui : UserInput) (ses : Session) : Session :=
  let ses :=
    if CollapsingHeader ui "Entities" then
      let (ges, sc) := EntityImGui_loop ui 0 (entities (game ses)) (scales ses) in
      mkSession (set_entities ges (game ses)) sc (showWorldEditor ses)
                (showInfoWindow ses) (showDemoWindow ses) (quit ses)
    else ses in
  if CollapsingHeader ui "Lights" then
    set_game (set_lights (LightsImGui_loop ui 0 (lights (game ses))) (game ses)) ses
  else ses.

(** [Game::UpdateImGuiWindowManager] *)
Definition UpdateImGuiWindowManager (ui : UserInput) (ses : Session) : Session :=
  mkSession (game ses) (scales ses)
            (Checkbox ui "Show World Editor" (showWorldEditor ses))
            (Checkbox ui "Show Info Window" (showInfoWindow ses))
            (Checkbox ui "Show Demo Window" (showDemoWindow ses))
            (quit ses).

(** [Quit()] *)
Definition Quit (ses : Session) : Session :=
  mkSession (game ses) (scales ses) (showWorldEditor ses) (showInfoWindow ses)
            (showDemoWindow ses) true.

Section Frames.

Variable RngState : Type.
Variable rand : RngState -> Z * RngState.

(** [Game::Update]. [UpdateImGui] hands the frame's input to ImGui, and
    the demo and info windows only display. [camera->Update] on a null
    camera is undefined: the update stops there, with [None]. *)
Definition Update (ui : UserInput) (ses : Session) : Rand RngState (option Session) :=
  let ses := UpdateImGuiWindowManager ui ses in
  let ses := if showWorldEditor ses then UpdateImGuiWorldEditor ui ses else ses in
  match camera (game ses) with
  | None => ret None
  | Some c =>
      let ses := set_game (set_camera (Some (Camera_Update ui c)) (game ses)) ses in
      let ses := if KeyDown_ESCAPE ui then Quit ses else ses in
      if KeyPress_TAB ui then
        g <- GenerateLights rand (game ses) ;;
        ret (Some (set_game g ses))
      else ret (Some ses)
  end.

(** What happens to a running game: a frame's update, or a resize to a
    client area the window reports. *)
Inductive Event :=
| Frame_Update (ui : UserInput)
| Resized (w h : Z).

Definition handle (e : Event) (ses : Session) : Rand RngState (option Session) :=
  match e with
  | Frame_Update ui => Update ui ses
  | Resized w h => ret (Some (set_game (fst (OnResize (set_size w h (game ses)))) ses))
  end.

Fixpoint handle_all (es : list Event) (ses : Session) : Rand RngState (option Session) :=
  match es with
  | [] => ret (Some ses)
  | e :: es' =>
      r <- handle e ses ;;
      match r with
      | Some ses' => handle_all es' ses'
      | None => ret None
      end
  end.

End Frames.

(** The session the window manager and the world editor leave: the
    start of [Game::Update], up to the camera's update. *)
Definition edited (ui : UserInput) (ses : Session) : Session :=
  let ses := UpdateImGuiWindowManager ui ses in
  if showWorldEditor ses then UpdateImGuiWorldEditor ui ses else ses.

(** The generator's state after one call of [rand()]. *)
Definition rand_state {S} (rand : S -> Z * S) (s : S) : S := snd (rand s).

(** ** More readings of a frame's record *)

(** Every draw comes right after the copy of the constants it uses: an
    entity's draw after the copy of ["perFrame"] on its pixel shader, a
    sphere's draw after the copies of the two marker shaders. [prev2]
    and [prev1] are the two calls before [t]. *)
Fixpoint draws_flushed (g : Game) (prev2 prev1 : option Cmd) (t : list Cmd) : bool :=
  match t with
  | [] => true
  | c :: t' =>
      match c with
      | GameEntity_Draw ge _ =>
          match prev1 with
          | Some (CopyBufferData sh name) =>
              String.eqb sh (pixelShader (material ge)) && String.eqb name "perFrame"
          | _ => false
          end
      | SetBuffersAndDraw _ =>
          match prev2, prev1 with
          | Some (CopyAllBufferData vs), Some (CopyAllBufferData ps) =>
              String.eqb vs (lightVS g) && String.eqb ps (lightPS g)
          | _, _ => false
          end
      | _ => true
      end && draws_flushed g prev1 (Some c) t'
  end.

(** [rest] passes [draws_flushed] whatever the two calls before it. *)
Definition flushed_after_any (g : Game) (rest : list Cmd) : Prop :=
  forall p2 p1, draws_flushed g p2 p1 rest = true.

Definition is_present (c : Cmd) : bool :=
  match c with Present _ _ => true | _ => false end.

(** The scale of a marker: [Range / 20.0f]. *)
Definition marker_scale (l : Light) : float := F32.div (Range l) (F32.dec 200 1).

(** The unused fields of a light are zero. *)
Definition unused_zero (l : Light) : Prop :=
  match Type_ l with
  | LIGHT_TYPE_DIRECTIONAL => Range l = F32.zero /\ Position l = float3_zero
  | LIGHT_TYPE_POINT => Direction l = float3_zero
  | LIGHT_TYPE_SPOT => True
  end.

(** The scale of the marker of the [Range] drawn from [r] is within
    [0.25, 0.5]. *)
Definition scale_in_range (r : Z) : bool :=
  F32.within (F32.dec 25 2) (F32.dec 5 1)
             (F32.div (RandomRange_of r (F32.dec 50 1) (F32.dec 100 1)) (F32.dec 200 1)).

(** [scale_in_range] with the constants already evaluated. *)
Definition scale_in_range_shared (r : Z) : bool :=
  let q := F32.div (F32.of_Z r) (S754_finite false 16776704 (-9)) in
  let range := F32.add (F32.mul q (S754_finite false 10485760 (-21)))
                       (S754_finite false 10485760 (-21)) in
  F32.within (S754_finite false 8388608 (-25)) (S754_finite false 8388608 (-24))
             (F32.div range (S754_finite false 10485760 (-19))).

(** A session on a game: unit scales, the world editor shown. *)
Definition session_of (g : Game) : Session :=
  mkSession g (fun _ => mkFloat3 F32.one F32.one F32.one) true true false false.

(** A frame's input that leaves everything as it is. *)
Definition idle : UserInput :=
  mkInput (fun _ b => b) (fun _ => false) (fun _ => false)
          (fun _ _ v _ _ _ => v) (fun _ _ v _ _ _ => v) (fun _ _ v => v)
          (fun c => c) false false.

(** A frame's input that opens every header and node, drags every
    widget to zero, and presses TAB. *)
Definition busy : UserInput :=
  mkInput (fun _ _ => true) (fun _ => true) (fun _ => true)
          (fun _ _ _ _ _ _ => F32.zero) (fun _ _ _ _ _ _ => float3_zero)
          (fun _ _ _ => float3_zero) (fun c => c) false true.

(** * Properties *)

(** ** The fill loop *)

Section FillLoop.

Variable RngState : Type.
Variable rand : RngState -> Z * RngState.

(** A property every generated point light has. *)
Variable P : Light -> Prop.
Hypothesis P_point : forall s, P (fst (RandomPointLight rand s)).

(** The loop appends to the collection, every appended light comes
    from the loop's body, and with enough iterations allowed the loop
    stops on its guard, at [max (size, lightCount)] lights. *)
Lemma fill_lights_appends (fuel lightCount : nat) :
  forall (ls : list Light) (s : RngState),
  exists pts,
    fst (fill_lights rand fuel lightCount ls s) = ls ++ pts /\
    Forall P pts /\
    (lightCount <= length ls + fuel ->
     length pts = lightCount - length ls).
Proof.
  induction fuel as [|fuel IH]; intros ls s; cbn [fill_lights].
  - exists []. rewrite app_nil_r. repeat split; auto. simpl. lia.
  - destruct (Nat.ltb_spec (length ls) lightCount) as [Hlt|Hge].
    + unfold bind at 1.
      pose proof (P_point s) as Hp.
      destruct (RandomPointLight rand s) as [point s'] eqn:E. simpl in Hp.
      destruct (IH (push_back ls point) s') as (pts & Heq & Hall & Hlen).
      exists (point :: pts). unfold push_back in *.
      rewrite Heq, <- app_assoc. repeat split; auto.
      intros Hf. rewrite length_app in Hlen. simpl in *. lia.
    + exists []. rewrite app_nil_r. repeat split; auto. simpl. lia.
Qed.

End FillLoop.

(** The loop's result does not depend on the iterations allowed beyond
    those it needs: it stops on its guard, not on the allowance. *)
Lemma fill_lights_enough_fuel {S} (rand : S -> Z * S) (fuel lightCount : nat) :
  forall (ls : list Light) (s : S) (extra : nat),
    lightCount <= length ls + fuel ->
    fill_lights rand (fuel + extra) lightCount ls s =
    fill_lights rand fuel lightCount ls s.
Proof.
  induction fuel as [|fuel IH]; intros ls s extra Hle.
  - destruct extra as [|extra]; [reflexivity|]. cbn [Nat.add fill_lights].
    destruct (Nat.ltb_spec (length ls) lightCount); [lia|reflexivity].
  - cbn [Nat.add fill_lights].
    destruct (Nat.ltb_spec (length ls) lightCount) as [Hlt|Hge]; [|reflexivity].
    unfold bind. destruct (RandomPointLight rand s) as [point s'].
    apply IH. unfold push_back. rewrite length_app. simpl. lia.
Qed.

Lemma fill_lights_guard_fails {S} (rand : S -> Z * S) (lightCount : nat)
      (ls : list Light) (s : S) :
  (length (fst (fill_lights rand lightCount lightCount ls s)) <? lightCount) = false.
Proof.
  destruct (fill_lights_appends rand (fun _ => True) (fun _ => I)
              lightCount lightCount ls s) as (pts & Heq & _ & Hlen).
  rewrite Heq, length_app. apply Nat.ltb_ge. lia.
Qed.

Lemma RandomPointLight_is_point {S} (rand : S -> Z * S) (s : S) :
  Type_ (fst (RandomPointLight rand s)) = LIGHT_TYPE_POINT.
Proof.
  unfold RandomPointLight, RandomFloat3, RandomRange, RandomRangeInt, bind, ret.
  repeat match goal with |- context [rand ?x] => destruct (rand x) end.
  reflexivity.
Qed.

(** The collection [GenerateLights] leaves: the three directional lights,
    then [lightCount - 3] lights from the loop's body. *)
Lemma GenerateLights_shape {S} (rand : S -> Z * S) (P : Light -> Prop)
      (HP : forall s, P (fst (RandomPointLight rand s))) (g : Game) (s : S) :
  exists pts,
    fst (GenerateLights rand g s) = set_lights ([dir1; dir2; dir3] ++ pts) g /\
    Forall P pts /\
    length pts = lightCount g - 3.
Proof.
  unfold GenerateLights, bind, ret.
  destruct (fill_lights_appends rand P HP (lightCount g) (lightCount g)
              (push_back (push_back (push_back [] dir1) dir2) dir3) s)
    as (pts & Heq & Hall & Hlen).
  destruct (fill_lights rand _ _ _ s) as [ls s'] eqn:E. simpl in Heq. subst ls.
  exists pts. repeat split; auto. apply Hlen. simpl. lia.
Qed.

Lemma Forall_is_point_map (pts : list Light) :
  Forall (fun l => Type_ l = LIGHT_TYPE_POINT) pts ->
  map Type_ pts = repeat LIGHT_TYPE_POINT (length pts).
Proof.
  induction 1 as [|l pts Hl _ IH]; simpl; [reflexivity|]. now rewrite Hl, IH.
Qed.

Lemma GenerateLights_types {S} (rand : S -> Z * S) (g : Game) (s : S) :
  map Type_ (lights (fst (GenerateLights rand g s))) =
  repeat LIGHT_TYPE_DIRECTIONAL 3 ++ repeat LIGHT_TYPE_POINT (lightCount g - 3).
Proof.
  destruct (GenerateLights_shape rand (fun l => Type_ l = LIGHT_TYPE_POINT)
              (RandomPointLight_is_point rand) g s) as (pts & Heq & Hall & Hlen).
  rewrite Heq. unfold set_lights. cbn [lights].
  rewrite map_app, (Forall_is_point_map Hall), Hlen. reflexivity.
Qed.

Lemma GenerateLights_lightCount {S} (rand : S -> Z * S) (g : Game) (s : S) :
  lightCount (fst (GenerateLights rand g s)) = lightCount g.
Proof.
  destruct (GenerateLights_shape rand (fun _ => True) (fun _ => I) g s)
    as (pts & Heq & _ & _).
  now rewrite Heq.
Qed.

Lemma GenerateLights_length {S} (rand : S -> Z * S) (g : Game) (s : S) :
  length (lights (fst (GenerateLights rand g s))) = Nat.max 3 (lightCount g).
Proof.
  rewrite <- (length_map Type_), GenerateLights_types, length_app, !repeat_length. lia.
Qed.

Lemma count_type_map (t : LightType) (ls : list Light) :
  count_type t ls = length (filter (fun x => LightType_eqb x t) (map Type_ ls)).
Proof.
  unfold count_type. induction ls as [|l ls IH]; simpl; [reflexivity|].
  destruct (LightType_eqb (Type_ l) t); simpl; now rewrite IH.
Qed.

Lemma filter_repeat {A} (f : A -> bool) (a : A) (n : nat) :
  filter f (repeat a n) = if f a then repeat a n else [].
Proof.
  induction n as [|n IH]; simpl; [now destruct (f a)|].
  rewrite IH. now destruct (f a).
Qed.

(** C1. For every capacity C >= 3, GenerateLights with lightCount = C
    leaves exactly C lights; those at indices 0, 1, 2 are tagged
    Directional and those at indices 3 .. C-1 are tagged Point, so there
    are 3 Directional and C - 3 Point lights (32 gives 3 and 29, 3 gives
    3 and 0). *)
Theorem GenerateLights_capacity {S} (rand : S -> Z * S) (g : Game) (s : S) :
  3 <= lightCount g ->
  let ls := lights (fst (GenerateLights rand g s)) in
  length ls = lightCount g /\
  (forall i, i < 3 -> option_map Type_ (nth_error ls i) = Some LIGHT_TYPE_DIRECTIONAL) /\
  (forall i, 3 <= i < lightCount g ->
             option_map Type_ (nth_error ls i) = Some LIGHT_TYPE_POINT) /\
  count_type LIGHT_TYPE_DIRECTIONAL ls = 3 /\
  count_type LIGHT_TYPE_POINT ls = lightCount g - 3 /\
  count_type LIGHT_TYPE_SPOT ls = 0.
Proof.
  intros HC ls.
  assert (Hty : map Type_ ls =
                repeat LIGHT_TYPE_DIRECTIONAL 3 ++ repeat LIGHT_TYPE_POINT (lightCount g - 3))
    by apply GenerateLights_types.
  assert (Hnth : forall i, option_map Type_ (nth_error ls i) =
                           nth_error (map Type_ ls) i)
    by (intros i; symmetry; apply nth_error_map).
  split; [|split; [|split; [|split; [|split]]]].
  - unfold ls. rewrite GenerateLights_length. lia.
  - intros i Hi. rewrite Hnth, Hty, nth_error_app1 by (rewrite repeat_length; lia).
    apply nth_error_repeat; lia.
  - intros i Hi. rewrite Hnth, Hty, nth_error_app2 by (rewrite repeat_length; lia).
    rewrite repeat_length. apply nth_error_repeat; lia.
  - rewrite count_type_map, Hty, filter_app, !filter_repeat. simpl.
    reflexivity.
  - rewrite count_type_map, Hty, filter_app, !filter_repeat. simpl.
    apply repeat_length.
  - rewrite count_type_map, Hty, filter_app, !filter_repeat. reflexivity.
Qed.

(** ** The macro's results, for every draw *)

Lemma all_from_spec (ok : Z -> bool) (n : nat) :
  forall r0, all_from ok n r0 = true ->
  forall r, (r0 <= r < r0 + Z.of_nat n)%Z -> ok r = true.
Proof.
  induction n as [|n IH]; intros r0 Hall r Hr; [lia|].
  cbn [all_from] in Hall. apply andb_true_iff in Hall as [H0 Hrest].
  destruct (Z.eq_dec r r0) as [->|Hne]; [exact H0|].
  apply (IH (r0 + 1)%Z Hrest). lia.
Qed.

Lemma draw_in_ranges_shared_eq (r : Z) :
  draw_in_ranges r = draw_in_ranges_shared r.
Proof.
  unfold draw_in_ranges, draw_in_ranges_shared, affine_within,
         RandomRange_of, RandomRangeInt_of.
  change (F32.of_Z RAND_MAX) with (S754_finite false 16776704 (-9)).
  change (F32.dec (-100) 1) with (S754_finite true 10485760 (-20)).
  change (F32.dec 100 1) with (S754_finite false 10485760 (-20)).
  change (F32.dec (-50) 1) with (S754_finite true 10485760 (-21)).
  change (F32.dec 50 1) with (S754_finite false 10485760 (-21)).
  change (F32.dec 1 1) with (S754_finite false 13421773 (-27)).
  change (F32.dec 30 1) with (S754_finite false 12582912 (-22)).
  change (F32.of_Z (1 - 0)) with (S754_finite false 8388608 (-23)).
  change (F32.of_Z 1) with (S754_finite false 8388608 (-23)).
  change (F32.of_Z 0) with (S754_zero false).
  reflexivity.
Qed.

Lemma all_draws_in_ranges_shared :
  all_from draw_in_ranges_shared (Z.to_nat (RAND_MAX + 1)) 0 = true.
Proof. vm_compute. reflexivity. Qed.

(** Every value [rand()] can return gives, in each of the five uses, a
    number within the bounds of that use. *)
Lemma draw_in_ranges_all (r : Z) :
  (0 <= r <= RAND_MAX)%Z -> draw_in_ranges r = true.
Proof.
  intros Hr. rewrite draw_in_ranges_shared_eq.
  eapply all_from_spec; [exact all_draws_in_ranges_shared|].
  rewrite Z2Nat.id by (unfold RAND_MAX; lia). lia.
Qed.

Section RangedSource.

Variable RngState : Type.
Variable rand : RngState -> Z * RngState.
(** What the C standard promises of [rand()]. *)
Hypothesis rand_range : forall s, (0 <= fst (rand s) <= RAND_MAX)%Z.

Lemma RandomPointLight_in_bounds (s : RngState) :
  point_in_bounds (fst (RandomPointLight rand s)) = true.
Proof.
  unfold RandomPointLight, RandomFloat3, RandomRange, RandomRangeInt, bind, ret.
  repeat match goal with
         | |- context [rand ?x] =>
             let H := fresh "Hr" in
             pose proof (draw_in_ranges_all (rand_range x)) as H;
             destruct (rand x); cbn [fst] in H
         end.
  unfold draw_in_ranges, F32.within in *.
  repeat match goal with
         | H : _ && _ = true |- _ => apply andb_true_iff in H; destruct H
         end.
  unfold point_in_bounds, F32.within.
  cbn [fst Position Color Range Intensity x3 y3 z3
       set_Type set_Position set_Color set_Range set_Intensity].
  repeat (apply andb_true_iff; split); assumption.
Qed.

End RangedSource.

(** C2. Every Point light appended by GenerateLights has position.x and
    position.z in [-10,10], position.y in [-5,5], each colour channel in
    [0,1], range in [5,10] and intensity in [0.1,3.0], whatever values in
    0 .. RAND_MAX the random source returns. The appended lights are
    those after the first three, and they are the Point lights of the
    collection. *)
Theorem GenerateLights_point_bounds {S} (rand : S -> Z * S) (g : Game) (s : S) :
  (forall s', (0 <= fst (rand s') <= RAND_MAX)%Z) ->
  let ls := lights (fst (GenerateLights rand g s)) in
  Forall (fun l => point_in_bounds l = true) (skipn 3 ls) /\
  (forall l, In l ls -> Type_ l = LIGHT_TYPE_POINT -> point_in_bounds l = true).
Proof.
  intros Hrange ls.
  destruct (GenerateLights_shape rand (fun l => point_in_bounds l = true)
              (RandomPointLight_in_bounds rand Hrange) g s) as (pts & Heq & Hall & _).
  unfold ls. rewrite Heq. unfold set_lights. cbn [lights app skipn].
  split; [exact Hall|].
  intros l [<-|[<-|[<-|Hin]]] Hty; try discriminate Hty.
  rewrite Forall_forall in Hall. now apply Hall.
Qed.

Lemma lcg_rand_range (s : Z) : (0 <= fst (lcg_rand s) <= RAND_MAX)%Z.
Proof.
  unfold lcg_rand, RAND_MAX. cbn [fst].
  change 32767%Z with (Z.ones 15). rewrite Z.land_ones by lia.
  pose proof (Z.mod_pos_bound (Z.shiftr ((s * 214013 + 2531011) mod 2 ^ 32) 16) (2 ^ 15)).
  change (Z.ones 15) with (2 ^ 15 - 1)%Z. lia.
Qed.

Lemma GenerateLights_capacity_witness :
  3 <= lightCount (set_lightCount 32 scene) /\
  length (lights (fst (GenerateLights lcg_rand (set_lightCount 32 scene) 1%Z))) = 32.
Proof.
  split; [vm_compute; lia|].
  apply (GenerateLights_capacity lcg_rand (set_lightCount 32 scene) 1%Z).
  vm_compute; lia.
Defined.

Lemma GenerateLights_point_bounds_witness :
  (forall s', (0 <= fst (lcg_rand s') <= RAND_MAX)%Z) /\
  Forall (fun l => point_in_bounds l = true)
         (skipn 3 (lights (fst (GenerateLights lcg_rand (set_lightCount 32 scene) 1%Z)))).
Proof.
  split; [exact lcg_rand_range|].
  apply (GenerateLights_point_bounds lcg_rand (set_lightCount 32 scene) 1%Z).
  exact lcg_rand_range.
Defined.

Lemma GenerateLights_lights {S} (rand : S -> Z * S) (g : Game) (s : S) :
  exists pts,
    lights (fst (GenerateLights rand g s)) = [dir1; dir2; dir3] ++ pts /\
    Forall (fun l => Type_ l = LIGHT_TYPE_POINT) pts /\
    length pts = lightCount g - 3.
Proof.
  destruct (GenerateLights_shape rand (fun l => Type_ l = LIGHT_TYPE_POINT)
              (RandomPointLight_is_point rand) g s) as (pts & Heq & Hall & Hlen).
  exists pts. rewrite Heq. auto.
Qed.

Lemma filter_directional_points (pts : list Light) :
  Forall (fun l => Type_ l = LIGHT_TYPE_POINT) pts ->
  filter (fun l => LightType_eqb (Type_ l) LIGHT_TYPE_DIRECTIONAL) pts = [].
Proof.
  induction 1 as [|l pts Hl _ IH]; simpl; [reflexivity|]. now rewrite Hl.
Qed.

Lemma GenerateLights_directional_set {S} (rand : S -> Z * S) (g : Game) (s : S) :
  let ls := lights (fst (GenerateLights rand g s)) in
  firstn 3 ls = [dir1; dir2; dir3] /\
  filter (fun l => LightType_eqb (Type_ l) LIGHT_TYPE_DIRECTIONAL) ls = [dir1; dir2; dir3].
Proof.
  destruct (GenerateLights_lights rand g s) as (pts & Heq & Hall & _).
  cbv zeta. rewrite Heq. split; [reflexivity|].
  rewrite filter_app, (filter_directional_points Hall). reflexivity.
Qed.

Lemma GenerateLights_ignores_lights {S} (rand : S -> Z * S) (g : Game)
      (old : list Light) (s : S) :
  lights (fst (GenerateLights rand (set_lights old g) s)) =
  lights (fst (GenerateLights rand g s)).
Proof.
  unfold GenerateLights, bind, ret. unfold set_lights at 1 2. cbn [lightCount].
  destruct (fill_lights rand _ _ _ s) as [ls s']. reflexivity.
Qed.

(** C3. GenerateLights replaces the contents of the collection: whatever
    the collection held before, after a call it is what the call would
    have left from any other contents, 3 Directional lights followed by
    C - 3 Point lights (none when C is below 3); the Directional lights
    are the three fixed records dir1, dir2, dir3 after every call, so a
    call and the call after it agree on the directional set. *)
Theorem GenerateLights_replaces {S} (rand : S -> Z * S) (g : Game)
        (old : list Light) (s s' : S) :
  let directional := fun l => LightType_eqb (Type_ l) LIGHT_TYPE_DIRECTIONAL in
  let shape := repeat LIGHT_TYPE_DIRECTIONAL 3 ++
               repeat LIGHT_TYPE_POINT (lightCount g - 3) in
  let g1 := fst (GenerateLights rand (set_lights old g) s) in
  let g2 := fst (GenerateLights rand g1 s') in
  lights g1 = lights (fst (GenerateLights rand g s)) /\
  map Type_ (lights g1) = shape /\
  map Type_ (lights g2) = shape /\
  firstn 3 (lights g1) = [dir1; dir2; dir3] /\
  firstn 3 (lights g2) = [dir1; dir2; dir3] /\
  filter directional (lights g1) = [dir1; dir2; dir3] /\
  filter directional (lights g2) = filter directional (lights g1).
Proof.
  intros directional shape g1 g2.
  assert (Hc1 : lightCount g1 = lightCount g)
    by (unfold g1; now rewrite GenerateLights_lightCount).
  destruct (GenerateLights_directional_set rand (set_lights old g) s) as [Hf1 Hd1].
  destruct (GenerateLights_directional_set rand g1 s') as [Hf2 Hd2].
  refine (conj _ (conj _ (conj _ (conj Hf1 (conj Hf2 (conj Hd1 _)))))).
  - apply GenerateLights_ignores_lights.
  - unfold g1, shape. rewrite GenerateLights_types. reflexivity.
  - unfold g2, shape. rewrite GenerateLights_types, Hc1. reflexivity.
  - unfold directional, g2. rewrite Hd2. symmetry. exact Hd1.
Qed.

(** In the scene as loaded the light count is 0, and GenerateLights
    leaves 3 lights. *)
Lemma GenerateLights_size_below_three :
  lightCount scene = 0 /\
  length (lights (fst (GenerateLights lcg_rand scene 1%Z))) = 3.
Proof. vm_compute. split; reflexivity. Qed.

Lemma GenerateLights_size_not_capacity :
  ~ (forall (g : Game) (s : Z),
       length (lights (fst (GenerateLights lcg_rand g s))) =
       lightCount (fst (GenerateLights lcg_rand g s))).
Proof.
  intros H. specialize (H scene 1%Z). vm_compute in H. discriminate H.
Qed.

(** C6, amended. After GenerateLights the collection holds the larger of
    3 and lightCount lights, and lightCount is what it was: the size is
    the declared capacity for capacities of 3 and more, and 3 for the
    capacities 0, 1 and 2. *)
Theorem GenerateLights_size {S} (rand : S -> Z * S) (g : Game) (s : S) :
  let g' := fst (GenerateLights rand g s) in
  lightCount g' = lightCount g /\
  length (lights g') = Nat.max 3 (lightCount g) /\
  (length (lights g') = lightCount g' <-> 3 <= lightCount g).
Proof.
  cbv zeta. rewrite GenerateLights_lightCount, GenerateLights_length.
  repeat split; lia.
Qed.

(** ** The frame *)

Lemma Some_inj {A} (a b : A) : Some a = Some b -> a = b.
Proof. congruence. Qed.

Lemma seqF_Some (a b : list Cmd) : Some a ;;; Some b = Some (a ++ b).
Proof. reflexivity. Qed.

Lemma lights_block_Some (g : Game) :
  lights g <> [] -> lightCount g <= length (lights g) ->
  lights_block g = Some (firstn (lightCount g) (lights g)).
Proof.
  intros Hne Hle. unfold lights_block, lights_at.
  destruct (lights g) as [|l ls] eqn:E; [congruence|]. cbn [nth_error].
  destruct (Nat.leb_spec (lightCount g) (length (l :: ls))); [reflexivity|lia].
Qed.

Lemma draw_entity_Some (g : Game) (cam : Camera) (ge : GameEntity) :
  camera g = Some cam -> lights g <> [] -> lightCount g <= length (lights g) ->
  draw_entity g ge = Some (entity_calls g cam ge).
Proof.
  intros Hcam Hne Hle. unfold draw_entity.
  now rewrite (lights_block_Some g Hne Hle), Hcam.
Qed.

Lemma draw_entities_Some (g : Game) (cam : Camera) (ges : list GameEntity) :
  camera g = Some cam -> lights g <> [] -> lightCount g <= length (lights g) ->
  draw_entities g ges = Some (flat_map (entity_calls g cam) ges).
Proof.
  intros Hcam Hne Hle. induction ges as [|ge ges IH]; [reflexivity|].
  cbn [draw_entities flat_map].
  now rewrite (draw_entity_Some g ge Hcam Hne Hle), IH.
Qed.

(** The loop, entered at index [i] with [n] iterations left, draws the
    markers of the point lights among [lights[i .. i+n-1]], in order. *)
Lemma DrawPointLights_loop_Some (g : Game) (n : nat) :
  forall i, i + n <= length (lights g) ->
  DrawPointLights_loop g n i =
  Some (flat_map (draw_light_marker g) (filter is_point (firstn n (skipn i (lights g))))).
Proof.
  induction n as [|n IH]; intros i Hle; [reflexivity|].
  cbn [DrawPointLights_loop]. unfold lights_at.
  destruct (nth_error (lights g) i) as [light|] eqn:E.
  2:{ apply nth_error_None in E. lia. }
  assert (Hskip : skipn i (lights g) = light :: skipn (S i) (lights g)).
  { clear -E. revert i E. induction (lights g) as [|a l IHl]; intros [|i] E;
      try discriminate; cbn in *; [congruence|]. now apply IHl. }
  rewrite Hskip. cbn [firstn filter]. fold (is_point light).
  rewrite (IH (S i)) by lia.
  destruct (is_point light); reflexivity.
Qed.

Lemma DrawPointLights_Some (g : Game) (cam : Camera) :
  camera g = Some cam -> lightCount g <= length (lights g) ->
  DrawPointLights g =
  Some ([ SetShader (lightVS g); SetShader (lightPS g);
          SetMatrix4x4 (lightVS g) "view" (GetView cam);
          SetMatrix4x4 (lightVS g) "projection" (GetProjection cam) ] ++
        flat_map (draw_light_marker g)
                 (filter is_point (firstn (lightCount g) (lights g)))).
Proof.
  intros Hcam Hle. unfold DrawPointLights. rewrite Hcam.
  rewrite DrawPointLights_loop_Some by lia. reflexivity.
Qed.

Lemma sphere_draws_markers (g : Game) (ls : list Light) :
  forall w c, sphere_draws w c (flat_map (draw_light_marker g) ls) = map (marker g) ls.
Proof.
  induction ls as [|l ls IH]; intros w c; [reflexivity|].
  cbn [flat_map map draw_light_marker app sphere_draws].
  change (String.eqb "world" "world") with true.
  change (String.eqb "worldInverseTranspose" "world") with false.
  change (String.eqb "Color" "Color") with true.
  cbn iota. rewrite IH. reflexivity.
Qed.

(** C4. DrawPointLights draws one sphere for each light among the first
    lightCount records whose tag is Point, and for no other light, in
    index order; the sphere's world matrix is scaling by range / 20 on
    the three axes, times the identity rotation, times the translation
    to the light's position, and its colour is the light's colour
    multiplied, channel by channel, by its intensity. *)
Theorem DrawPointLights_markers (g : Game) (cam : Camera) :
  camera g = Some cam -> lightCount g <= length (lights g) ->
  exists t,
    DrawPointLights g = Some t /\
    sphere_draws None None t =
    map (marker g) (filter is_point (firstn (lightCount g) (lights g))) /\
    length (sphere_draws None None t) =
    count_type LIGHT_TYPE_POINT (firstn (lightCount g) (lights g)).
Proof.
  intros Hcam Hle. eexists. split; [apply (DrawPointLights_Some g Hcam Hle)|].
  assert (H : forall t, sphere_draws None None
                ([ SetShader (lightVS g); SetShader (lightPS g);
                   SetMatrix4x4 (lightVS g) "view" (GetView cam);
                   SetMatrix4x4 (lightVS g) "projection" (GetProjection cam) ] ++ t) =
              sphere_draws None None t) by reflexivity.
  rewrite H, sphere_draws_markers. split; [reflexivity|].
  now rewrite length_map.
Qed.

Lemma running_camera :
  camera running =
  Some (mkCamera (mkFloat3 (F32.of_Z 0) (F32.of_Z 0) (F32.of_Z (-10)))
                 (F32.of_Z 3) (F32.of_Z 1) (F32.div (F32.of_Z 1280) (F32.of_Z 720))).
Proof. reflexivity. Qed.

Lemma DrawPointLights_markers_witness :
  camera running <> None /\
  lightCount running <= length (lights running) /\
  exists t, DrawPointLights running = Some t /\
            length (sphere_draws None None t) = 29.
Proof.
  assert (Hle : lightCount running <= length (lights running)) by (vm_compute; lia).
  split; [rewrite running_camera; discriminate|].
  split; [exact Hle|].
  destruct (DrawPointLights_markers running running_camera Hle) as (t & Ht & _ & Hlen).
  exists t. split; [exact Ht|]. rewrite Hlen. vm_compute. reflexivity.
Defined.

Lemma Draw_Some (g : Game) (cam : Camera) :
  camera g = Some cam -> lights g <> [] -> lightCount g <= length (lights g) ->
  Draw g = Some (frame_clear ++
                 flat_map (entity_calls g cam) (entities g) ++
                 light_marker_calls g cam ++
                 [Sky_Draw cam] ++ DrawUI ++ frame_end).
Proof.
  intros Hcam Hne Hle. unfold Draw, draw_sky.
  rewrite (draw_entities_Some g (entities g) Hcam Hne Hle),
          (DrawPointLights_Some g Hcam Hle), Hcam.
  reflexivity.
Qed.

Lemma passes_app (a b : list Cmd) : passes (a ++ b) = passes a ++ passes b.
Proof. apply flat_map_app. Qed.

Lemma passes_entities (g : Game) (cam : Camera) (ges : list GameEntity) :
  passes (flat_map (entity_calls g cam) ges) = repeat EntityPass (length ges).
Proof.
  induction ges as [|ge ges IH]; [reflexivity|].
  cbn [flat_map]. rewrite passes_app, IH. reflexivity.
Qed.

Lemma passes_markers (g : Game) (ls : list Light) :
  passes (flat_map (draw_light_marker g) ls) = repeat LightMarkerPass (length ls).
Proof.
  induction ls as [|l ls IH]; [reflexivity|].
  cbn [flat_map]. rewrite passes_app, IH. reflexivity.
Qed.

Lemma no_clear_entities (g : Game) (cam : Camera) (ges : list GameEntity) :
  forallb (fun c => negb (is_clear c)) (flat_map (entity_calls g cam) ges) = true.
Proof.
  induction ges as [|ge ges IH]; [reflexivity|].
  cbn [flat_map]. rewrite forallb_app, IH. reflexivity.
Qed.

Lemma no_clear_markers (g : Game) (ls : list Light) :
  forallb (fun c => negb (is_clear c)) (flat_map (draw_light_marker g) ls) = true.
Proof.
  induction ls as [|l ls IH]; [reflexivity|].
  cbn [flat_map]. rewrite forallb_app, IH. reflexivity.
Qed.

(** C5. A frame that is drawn makes its calls in one order: the clear of
    the colour target to opaque black and of the depth and stencil
    target to depth 1.0, then the entity draws, then the light-marker
    draws, then the sky draw, then the overlay's sprite and text calls,
    then the debug UI's render, then the present. The two clears are the
    frame's first two calls and its only clears, so no draw precedes
    them. *)
Theorem Draw_order (g : Game) :
  Drawable g ->
  exists body,
    Draw g = Some (ClearRenderTargetView F32.zero F32.zero F32.zero F32.one ::
                   ClearDepthStencilView (Z.lor D3D11_CLEAR_DEPTH D3D11_CLEAR_STENCIL)
                                         F32.one 0 :: body) /\
    forallb (fun c => negb (is_clear c)) body = true /\
    passes body =
      repeat EntityPass (length (entities g)) ++
      repeat LightMarkerPass
             (count_type LIGHT_TYPE_POINT (firstn (lightCount g) (lights g))) ++
      [EnvironmentPass] ++ repeat OverlayPass 11 ++
      [DebugUIPass; DebugUIPass; PresentPass] /\
    (forall t i c, Draw g = Some t -> nth_error t i = Some c ->
                   is_draw c = true -> 2 <= i).
Proof.
  intros (Hcam & Hne & Hle).
  destruct (camera g) as [cam|] eqn:Ecam; [clear Hcam|congruence].
  pose proof (Draw_Some g Ecam Hne Hle) as HD.
  eexists. split; [exact HD|]. split; [|split].
  - unfold light_marker_calls.
    rewrite !forallb_app, no_clear_entities, no_clear_markers. reflexivity.
  - unfold light_marker_calls.
    rewrite !passes_app, passes_entities, passes_markers. reflexivity.
  - intros t i c Ht Hi Hc. rewrite HD in Ht. injection Ht as <-.
    destruct i as [|[|i]]; [| |lia]; cbn in Hi; injection Hi as <-; discriminate Hc.
Qed.

Lemma running_Drawable : Drawable running.
Proof.
  split; [rewrite running_camera; discriminate|].
  split; [vm_compute; discriminate|vm_compute; lia].
Qed.

Lemma Draw_order_witness :
  Drawable running /\
  exists body,
    option_map (firstn 2) (Draw running) =
      Some [ ClearRenderTargetView F32.zero F32.zero F32.zero F32.one;
             ClearDepthStencilView 3 F32.one 0 ] /\
    Draw running = Some (ClearRenderTargetView F32.zero F32.zero F32.zero F32.one ::
                         ClearDepthStencilView 3 F32.one 0 :: body) /\
    passes body =
      repeat EntityPass 6 ++ repeat LightMarkerPass 29 ++
      [EnvironmentPass] ++ repeat OverlayPass 11 ++
      [DebugUIPass; DebugUIPass; PresentPass].
Proof.
  split; [exact running_Drawable|].
  destruct (Draw_order running_Drawable) as (body & HD & _ & Hp & _).
  exists body. split; [rewrite HD; reflexivity|]. split; [exact HD|].
  rewrite Hp. vm_compute. reflexivity.
Defined.

Lemma frame_pushes_entities (g : Game) (cam : Camera) (ges : list GameEntity) :
  filter is_frame_push (flat_map (entity_calls g cam) ges) =
  flat_map (fun ge => firstn 5 (entity_calls g cam ge)) ges.
Proof.
  induction ges as [|ge ges IH]; [reflexivity|].
  cbn [flat_map]. rewrite filter_app, IH. reflexivity.
Qed.

Lemma frame_pushes_markers (g : Game) (ls : list Light) :
  filter is_frame_push (flat_map (draw_light_marker g) ls) = [].
Proof.
  induction ls as [|l ls IH]; [reflexivity|].
  cbn [flat_map]. rewrite filter_app, IH. reflexivity.
Qed.

(** C7. In a frame that is drawn, each iteration of the entity loop
    pushes to the pixel shader of that entity's material the first
    lightCount light records as "lights", lightCount as "lightCount",
    the camera's position as "cameraPosition" and the sky's specular mip
    count as "SpecIBLTotalMipLevels", copies the "perFrame" buffer, and
    then draws the entity. These pushes are made once for every entity,
    inside the loop, and nowhere else in the frame. *)
Theorem Draw_frame_constants (g : Game) (cam : Camera) :
  camera g = Some cam -> lights g <> [] -> lightCount g <= length (lights g) ->
  exists rest,
    Draw g = Some (frame_clear ++ flat_map (entity_calls g cam) (entities g) ++ rest) /\
    filter is_frame_push rest = [] /\
    (forall t, Draw g = Some t ->
       filter is_frame_push t =
       flat_map (fun ge =>
                   let ps := pixelShader (material ge) in
                   [ SetData ps "lights" (firstn (lightCount g) (lights g));
                     SetInt ps "lightCount" (Z.of_nat (lightCount g));
                     SetFloat3 ps "cameraPosition" (camPosition cam);
                     SetInt ps "SpecIBLTotalMipLevels" (specularMipLevels (sky g));
                     CopyBufferData ps "perFrame" ])
                (entities g)) /\
    (forall t, Draw g = Some t ->
       length (filter (fun c => match c with SetData _ _ _ => true | _ => false end) t) =
       length (entities g)).
Proof.
  intros Hcam Hne Hle.
  pose proof (Draw_Some g Hcam Hne Hle) as HD.
  assert (Hrest : filter is_frame_push
                    (light_marker_calls g cam ++ [Sky_Draw cam] ++ DrawUI ++ frame_end) = []).
  { unfold light_marker_calls. rewrite !filter_app, frame_pushes_markers. reflexivity. }
  eexists. split; [exact HD|]. split; [exact Hrest|]. split.
  - intros t Ht. rewrite HD in Ht. apply Some_inj in Ht. subst t.
    rewrite (filter_app _ frame_clear), (filter_app _ (flat_map _ _)).
    rewrite frame_pushes_entities, Hrest, app_nil_r. reflexivity.
  - intros t Ht. rewrite HD in Ht. apply Some_inj in Ht. subst t.
    unfold light_marker_calls. rewrite !filter_app, !length_app.
    assert (He : forall ges, length (filter (fun c => match c with SetData _ _ _ => true | _ => false end)
                  (flat_map (entity_calls g cam) ges)) = length ges).
    { induction ges as [|ge ges IH]; [reflexivity|]. cbn. now rewrite IH. }
    assert (Hm : forall ls, filter (fun c => match c with SetData _ _ _ => true | _ => false end)
                  (flat_map (draw_light_marker g) ls) = []).
    { induction ls as [|l ls IH]; [reflexivity|]. cbn. exact IH. }
    rewrite He, Hm. cbn. lia.
Qed.

Lemma Draw_frame_constants_witness :
  camera running <> None /\ lights running <> [] /\
  lightCount running <= length (lights running) /\
  forall t, Draw running = Some t ->
    length (filter (fun c => match c with SetData _ _ _ => true | _ => false end) t) = 6.
Proof.
  destruct running_Drawable as (Hc & Hne & Hle).
  split; [exact Hc|]. split; [exact Hne|]. split; [exact Hle|].
  destruct (Draw_frame_constants running running_camera Hne Hle) as (rest & _ & _ & _ & Hn).
  exact Hn.
Defined.

(** ** Resize *)

(** C8. A resize before any camera exists makes no call on a camera and
    changes nothing in the game: only the base class's resize runs. With
    a camera, the same resize calls the camera's projection update with
    width / height, so the camera's aspect ratio becomes that quotient,
    1280 / 720 for a surface of 1280 by 720. *)
Theorem OnResize_camera_guard (g : Game) (c : Camera) :
  let aspect := F32.div (F32.of_Z (width g)) (F32.of_Z (height g)) in
  let before := set_size 1280 720 (set_camera None g) in
  let after := set_size 1280 720 (set_camera (Some c) g) in
  OnResize (set_camera None g) = (set_camera None g, [DXCore_OnResize]) /\
  snd (OnResize (set_camera (Some c) g)) =
    [DXCore_OnResize; Camera_UpdateProjectionMatrix aspect] /\
  camera (fst (OnResize (set_camera (Some c) g))) =
    Some (mkCamera (camPosition c) (moveSpeed c) (mouseLookSpeed c) aspect) /\
  OnResize before = (before, [DXCore_OnResize]) /\
  option_map aspectRatio (camera (fst (OnResize after))) =
    Some (F32.div (F32.of_Z 1280) (F32.of_Z 720)) /\
  snd (OnResize after) =
    [DXCore_OnResize;
     Camera_UpdateProjectionMatrix (F32.div (F32.of_Z 1280) (F32.of_Z 720))].
Proof. repeat split. Qed.

(** ** The overlay *)

(** The overlay drawing can leave a mutation of the pipeline's state
    behind: after DrawUI the rasterizer state is the one the sample
    sprite batch bound, not the one that was bound before the overlay.
    So it is not the case that DrawUI always leaves the blend and
    depth/stencil state at the defaults and the rest of the state as it
    found it. *)
Lemma DrawUI_leaves_rasterizer_state :
  ps_rasterizer (run spritebatch DrawUI Pipeline_default) =
    Some "CullCounterClockwise"%string /\
  ~ (forall (collaborator : Cmd -> PipelineState -> PipelineState) (p : PipelineState),
       run collaborator DrawUI p = mkPipeline OM_default (ps_rasterizer p)).
Proof.
  split; [reflexivity|].
  intros H. specialize (H spritebatch Pipeline_default).
  apply (f_equal ps_rasterizer) in H. discriminate H.
Qed.

(** C9, amended. DrawUI ends by setting the blend state and the
    depth/stencil state back to the defaults, after the sprite batch has
    ended: whatever the sprite batch and the font did to the pipeline's
    state, whatever that state was before the overlay and whatever calls
    the frame made earlier, the blend and depth/stencil state DrawUI
    leaves are the default ones. The two resets touch nothing else: the
    rasterizer state is left as the overlay drawing left it. *)
Theorem DrawUI_restores_blend_and_depth
        (collaborator : Cmd -> PipelineState -> PipelineState) (p : PipelineState) :
  ps_om (run collaborator DrawUI p) = OM_default /\
  (forall earlier, ps_om (run collaborator (earlier ++ DrawUI) p) = OM_default) /\
  (exists sprites,
     DrawUI = sprites ++ [ OMSetBlendState None None 0xFFFFFFFF;
                           OMSetDepthStencilState None 0 ] /\
     last sprites SpriteBatch_Begin = SpriteBatch_End /\
     forallb (fun c => match pass_of c with Some OverlayPass => true | _ => false end)
             sprites = true /\
     ps_rasterizer (run collaborator DrawUI p) =
       ps_rasterizer (run collaborator sprites p)).
Proof.
  split; [reflexivity|]. split.
  - intros earlier. unfold run. rewrite fold_left_app. reflexivity.
  - exists (firstn 11 DrawUI). repeat split.
Qed.

(** ** Bounds of the light collection in the draw phase *)

Lemma lights_at_Some (g : Game) (i : nat) :
  i < length (lights g) -> lights_at g i <> None.
Proof. intros Hi. unfold lights_at. now apply nth_error_Some. Qed.

(** C10. After GenerateLights the collection holds max(3, lightCount)
    records, so for every lightCount the block of lightCount records
    that Draw reads from index 0 lies within the collection, every
    lights[i] with i < lightCount that DrawPointLights reads exists, and
    the frame of a game that has a camera runs to its end. *)
Theorem GenerateLights_draw_in_bounds {S} (rand : S -> Z * S) (g : Game) (s : S)
        (cam : Camera) :
  let g' := fst (GenerateLights rand g s) in
  length (lights g') = Nat.max 3 (lightCount g') /\
  lightCount g' <= length (lights g') /\
  lights_block g' = Some (firstn (lightCount g') (lights g')) /\
  length (firstn (lightCount g') (lights g')) = lightCount g' /\
  Forall (fun i => lights_at g' i <> None) (seq 0 (lightCount g')) /\
  DrawPointLights_loop g' (lightCount g') 0 <> None /\
  Draw (set_camera (Some cam) g') <> None.
Proof.
  intros g'.
  assert (Hlen : length (lights g') = Nat.max 3 (lightCount g'))
    by (unfold g'; now rewrite GenerateLights_lightCount, GenerateLights_length).
  assert (Hle : lightCount g' <= length (lights g')) by lia.
  assert (Hne : lights g' <> [])
    by (intros E; rewrite E in Hlen; cbn [length] in Hlen; lia).
  refine (conj Hlen (conj Hle (conj _ (conj _ (conj _ (conj _ _)))))).
  - now apply lights_block_Some.
  - apply firstn_length_le, Hle.
  - apply Forall_forall. intros i Hi. apply in_seq in Hi.
    apply lights_at_Some. lia.
  - rewrite DrawPointLights_loop_Some by lia. discriminate.
  - rewrite (@Draw_Some (set_camera (Some cam) g') cam); [discriminate|reflexivity|assumption|assumption].
Qed.

(** * Further properties *)

(** ** Generation: the draws consumed and the fields left alone *)

Section Draws.

Variable RngState : Type.
Variable rand : RngState -> Z * RngState.

Let step := rand_state rand.

Lemma RandomPointLight_draws (s : RngState) :
  snd (RandomPointLight rand s) = Nat.iter 8 step s.
Proof.
  unfold RandomPointLight, RandomFloat3, RandomRange, RandomRangeInt, bind, ret.
  change (Nat.iter 8 step s)
    with (step (step (step (step (step (step (step (step s)))))))).
  unfold step, rand_state.
  repeat match goal with
         | |- context [rand ?x] =>
             let E := fresh "E" in destruct (rand x) eqn:E; cbn [snd]
         end.
  reflexivity.
Qed.

Lemma fill_lights_draws (fuel lightCount : nat) :
  forall (ls : list Light) (s : RngState),
    lightCount <= length ls + fuel ->
    snd (fill_lights rand fuel lightCount ls s) =
    Nat.iter (8 * (lightCount - length ls)) step s.
Proof.
  induction fuel as [|fuel IH]; intros ls s Hle; cbn [fill_lights].
  - replace (lightCount - length ls) with 0 by lia. reflexivity.
  - destruct (Nat.ltb_spec (length ls) lightCount) as [Hlt|Hge].
    + unfold bind at 1. pose proof (RandomPointLight_draws s) as Hs.
      destruct (RandomPointLight rand s) as [point s']. cbn [snd] in Hs.
      rewrite IH by (unfold push_back; rewrite length_app; simpl; lia).
      unfold push_back. rewrite length_app, Hs, <- Nat.iter_add. f_equal.
      simpl length. lia.
    + replace (lightCount - length ls) with 0 by lia. reflexivity.
Qed.

Lemma GenerateLights_state (g : Game) (s : RngState) :
  snd (GenerateLights rand g s) =
    Nat.iter (8 * (lightCount g - 3)) (rand_state rand) s.
Proof.
  unfold GenerateLights, bind, ret.
  pose proof (@fill_lights_draws (lightCount g) (lightCount g)
                (push_back (push_back (push_back [] dir1) dir2) dir3) s) as H.
  destruct (fill_lights rand _ _ _ s) as [ls s']. cbn [snd] in *.
  apply H. simpl. lia.
Qed.

Lemma GenerateLights_frame (g : Game) (s : RngState) :
  fst (GenerateLights rand g s) =
    set_lights (lights (fst (GenerateLights rand g s))) g.
Proof.
  destruct (GenerateLights_shape rand (fun _ => True) (fun _ => I) g s)
    as (pts & Heq & _ & _).
  rewrite Heq. reflexivity.
Qed.

(** X1. GenerateLights calls rand() eight times for each point light it
    appends, 8 * (lightCount - 3) times in all and never when lightCount
    is 3 or less, and it changes nothing of the game but the lights. *)
Theorem GenerateLights_draws (g : Game) (s : RngState) :
  snd (GenerateLights rand g s) =
    Nat.iter (8 * (lightCount g - 3)) (rand_state rand) s /\
  (lightCount g <= 3 -> snd (GenerateLights rand g s) = s) /\
  fst (GenerateLights rand g s) =
    set_lights (lights (fst (GenerateLights rand g s))) g.
Proof.
  split; [apply GenerateLights_state|]. split; [|apply GenerateLights_frame].
  intros HC. rewrite GenerateLights_state.
  replace (lightCount g - 3) with 0 by lia. reflexivity.
Qed.

Lemma RandomPointLight_unused_zero (s : RngState) :
  unused_zero (fst (RandomPointLight rand s)).
Proof.
  unfold RandomPointLight, RandomFloat3, RandomRange, RandomRangeInt, bind, ret.
  repeat match goal with |- context [rand ?x] => destruct (rand x) end.
  reflexivity.
Qed.

(** X2. Every light GenerateLights leaves has the fields its type does
    not use at zero: a directional light has no range and no position,
    a point light has no direction. *)
Theorem GenerateLights_unused_zero (g : Game) (s : RngState) :
  Forall unused_zero (lights (fst (GenerateLights rand g s))).
Proof.
  destruct (GenerateLights_shape rand unused_zero RandomPointLight_unused_zero g s)
    as (pts & Heq & Hall & _).
  rewrite Heq. unfold set_lights. cbn [lights app].
  repeat (constructor; [cbn; auto|]). exact Hall.
Qed.

(** X3. After GenerateLights, the marker pass of a game with a camera
    draws one sphere for each light after the first three, in order, and
    none for the three directional lights: lightCount - 3 spheres, and
    no sphere at all when lightCount is 3 or less. *)
Theorem GenerateLights_then_markers (g : Game) (s : RngState) (cam : Camera) :
  let g' := set_camera (Some cam) (fst (GenerateLights rand g s)) in
  exists t,
    DrawPointLights g' = Some t /\
    sphere_draws None None t = map (marker g') (skipn 3 (lights g')) /\
    length (sphere_draws None None t) = lightCount g - 3.
Proof.
  intros g'.
  destruct (GenerateLights_lights rand g s) as (pts & Heq & Hall & Hlen).
  assert (Hl : lights g' = [dir1; dir2; dir3] ++ pts) by exact Heq.
  assert (Hc : lightCount g' = lightCount g)
    by (unfold g'; cbn [set_camera lightCount]; apply GenerateLights_lightCount).
  assert (Hle : lightCount g' <= length (lights g'))
    by (rewrite Hl, Hc, length_app; simpl; lia).
  pose proof (@DrawPointLights_Some g' cam eq_refl Hle) as Ht.
  eexists. split; [exact Ht|].
  assert (Hd : sphere_draws None None
                 ([ SetShader (lightVS g'); SetShader (lightPS g');
                    SetMatrix4x4 (lightVS g') "view" (GetView cam);
                    SetMatrix4x4 (lightVS g') "projection" (GetProjection cam) ] ++
                  flat_map (draw_light_marker g')
                           (filter is_point (firstn (lightCount g') (lights g')))) =
               map (marker g') (filter is_point (firstn (lightCount g') (lights g'))))
    by (cbn [app sphere_draws String.eqb Ascii.eqb Bool.eqb];
        apply sphere_draws_markers).
  assert (Hf : filter is_point (firstn (lightCount g') (lights g')) = pts).
  { rewrite Hl, Hc. destruct (lightCount g) as [|[|[|n]]] eqn:E;
      simpl in Hlen; try (destruct pts; [reflexivity|discriminate]).
    cbn [app firstn filter]. change (is_point dir1) with false.
    change (is_point dir2) with false. change (is_point dir3) with false.
    cbn iota. rewrite firstn_all2 by lia.
    clear -Hall. induction Hall as [|l pts Hp _ IH]; [reflexivity|].
    cbn [filter]. unfold is_point at 1. rewrite Hp. cbn. now rewrite IH. }
  rewrite Hd, Hf, Hl. cbn [app skipn]. split; [reflexivity|].
  now rewrite length_map.
Qed.

End Draws.

(** ** The size of the markers *)

Lemma scale_in_range_shared_eq (r : Z) : scale_in_range r = scale_in_range_shared r.
Proof.
  unfold scale_in_range, scale_in_range_shared, RandomRange_of.
  change (F32.of_Z RAND_MAX) with (S754_finite false 16776704 (-9)).
  change (F32.dec 200 1) with (S754_finite false 10485760 (-19)).
  change (F32.dec 25 2) with (S754_finite false 8388608 (-25)).
  change (F32.dec 5 1) with (S754_finite false 8388608 (-24)).
  change (F32.sub (F32.dec 100 1) (F32.dec 50 1))
    with (S754_finite false 10485760 (-21)).
  change (F32.dec 50 1) with (S754_finite false 10485760 (-21)).
  reflexivity.
Qed.

Lemma all_scales_in_range_shared :
  all_from scale_in_range_shared (Z.to_nat (RAND_MAX + 1)) 0 = true.
Proof. vm_compute. reflexivity. Qed.

Lemma scale_in_range_all (r : Z) :
  (0 <= r <= RAND_MAX)%Z -> scale_in_range r = true.
Proof.
  intros Hr. rewrite scale_in_range_shared_eq.
  eapply all_from_spec; [exact all_scales_in_range_shared|].
  rewrite Z2Nat.id by (unfold RAND_MAX; lia). lia.
Qed.

Lemma RandomPointLight_scale {S} (rand : S -> Z * S)
      (Hrange : forall s, (0 <= fst (rand s) <= RAND_MAX)%Z) (s : S) :
  F32.within (F32.dec 25 2) (F32.dec 5 1)
             (marker_scale (fst (RandomPointLight rand s))) = true.
Proof.
  unfold RandomPointLight, RandomFloat3, RandomRange, RandomRangeInt, bind, ret.
  repeat match goal with
         | |- context [rand ?x] =>
             let H := fresh "Hr" in
             pose proof (scale_in_range_all (Hrange x)) as H;
             destruct (rand x); cbn [fst] in H
         end.
  unfold marker_scale.
  cbn [fst Range set_Type set_Position set_Color set_Range set_Intensity].
  assumption.
Qed.

(** X4. The marker of every point light GenerateLights appends is drawn
    at a scale within [0.25, 0.5], for every value in 0 .. RAND_MAX the
    random source returns. *)
Theorem GenerateLights_marker_scale {S} (rand : S -> Z * S) (g : Game) (s : S) :
  (forall s', (0 <= fst (rand s') <= RAND_MAX)%Z) ->
  Forall (fun l => F32.within (F32.dec 25 2) (F32.dec 5 1) (marker_scale l) = true)
         (skipn 3 (lights (fst (GenerateLights rand g s)))).
Proof.
  intros Hrange.
  destruct (GenerateLights_shape rand
              (fun l => F32.within (F32.dec 25 2) (F32.dec 5 1) (marker_scale l) = true)
              (RandomPointLight_scale rand Hrange) g s)
    as (pts & Heq & Hall & _).
  rewrite Heq. exact Hall.
Qed.

Lemma GenerateLights_marker_scale_witness :
  (forall s', (0 <= fst (lcg_rand s') <= RAND_MAX)%Z) /\
  Forall (fun l => F32.within (F32.dec 25 2) (F32.dec 5 1) (marker_scale l) = true)
         (skipn 3 (lights (fst (GenerateLights lcg_rand (set_lightCount 32 scene) 1%Z)))).
Proof.
  split; [exact lcg_rand_range|].
  apply (GenerateLights_marker_scale lcg_rand (set_lightCount 32 scene) 1%Z).
  exact lcg_rand_range.
Defined.

(** ** When a frame is defined, and what every defined frame does *)

Lemma seqF_None_r (a : Frame) : a ;;; None = None.
Proof. now destruct a. Qed.

Lemma DrawPointLights_loop_None (g : Game) (n : nat) :
  forall i, n <> 0 -> length (lights g) < i + n -> DrawPointLights_loop g n i = None.
Proof.
  induction n as [|n IH]; intros i Hn Hlt; [congruence|].
  cbn [DrawPointLights_loop]. unfold lights_at.
  destruct (nth_error (lights g) i) as [light|] eqn:E; [|reflexivity].
  assert (Hi : i < length (lights g)) by (apply nth_error_Some; congruence).
  rewrite (IH (S i)) by lia.
  destruct (negb _); [reflexivity|apply seqF_None_r].
Qed.

Lemma DrawPointLights_None (g : Game) :
  camera g = None \/ length (lights g) < lightCount g -> DrawPointLights g = None.
Proof.
  intros [Hc|Hlt]; unfold DrawPointLights.
  - now rewrite Hc.
  - destruct (camera g); [|reflexivity].
    rewrite DrawPointLights_loop_None by lia. reflexivity.
Qed.

Lemma draw_entities_None (g : Game) (ge : GameEntity) (ges : list GameEntity) :
  lights g = [] -> draw_entities g (ge :: ges) = None.
Proof.
  intros Hl. cbn [draw_entities]. unfold draw_entity, lights_block, lights_at.
  rewrite Hl. reflexivity.
Qed.

Lemma Draw_None (g : Game) :
  camera g = None \/ length (lights g) < lightCount g \/
  (entities g <> [] /\ lights g = []) ->
  Draw g = None.
Proof.
  intros H. unfold Draw.
  destruct H as [Hc|[Hlt|[He Hl]]].
  - rewrite (DrawPointLights_None g (or_introl Hc)).
    cbn [seqF]. now destruct (draw_entities g (entities g)).
  - rewrite (DrawPointLights_None g (or_intror Hlt)).
    cbn [seqF]. now destruct (draw_entities g (entities g)).
  - destruct (entities g) as [|ge ges]; [congruence|].
    now rewrite (draw_entities_None g ge ges Hl).
Qed.

(** The record of any frame that runs to its end. *)
Lemma Draw_inv (g : Game) (t : list Cmd) :
  Draw g = Some t ->
  exists cam,
    camera g = Some cam /\ lightCount g <= length (lights g) /\
    (entities g = [] \/ lights g <> []) /\
    t = frame_clear ++ flat_map (entity_calls g cam) (entities g) ++
        light_marker_calls g cam ++ [Sky_Draw cam] ++ DrawUI ++ frame_end.
Proof.
  intros HD.
  destruct (camera g) as [cam|] eqn:Ec.
  2:{ rewrite Draw_None in HD by auto. discriminate. }
  destruct (le_lt_dec (lightCount g) (length (lights g))) as [Hle|Hlt].
  2:{ rewrite Draw_None in HD by auto. discriminate. }
  exists cam. split; [reflexivity|]. split; [exact Hle|].
  destruct (entities g) as [|ge ges] eqn:Ee.
  - split; [now left|].
    unfold Draw, draw_sky in HD. rewrite Ee, (DrawPointLights_Some g Ec Hle), Ec in HD.
    apply Some_inj in HD. subst t. reflexivity.
  - destruct (lights g) as [|l ls] eqn:El.
    { rewrite Draw_None in HD; [discriminate|]. right; right. rewrite Ee, El.
      split; [discriminate|reflexivity]. }
    split; [right; discriminate|].
    rewrite <- Ee, <- El in *.
    rewrite (Draw_Some g Ec) in HD; [|rewrite El; discriminate|exact Hle].
    apply Some_inj in HD. now subst t.
Qed.

Lemma Draw_runs_iff (g : Game) :
  Draw g <> None <->
  camera g <> None /\ lightCount g <= length (lights g) /\
  (entities g = [] \/ lights g <> []).
Proof.
  split.
  - intros HD. destruct (Draw g) as [t|] eqn:E; [|congruence].
    destruct (Draw_inv g E) as (cam & Hc & Hle & He & _).
    rewrite Hc. repeat split; [discriminate|exact Hle|exact He].
  - intros (Hc & Hle & He).
    destruct (camera g) as [cam|] eqn:Ec; [|congruence].
    destruct He as [He|Hl].
    + unfold Draw, draw_sky.
      rewrite He, (DrawPointLights_Some g Ec Hle), Ec. discriminate.
    + rewrite (Draw_Some g Ec Hl Hle). discriminate.
Qed.

(** X5. A frame runs to its end exactly when the camera exists, the
    first lightCount lights exist, and the collection is not empty
    unless there is no entity to draw; it stops, at a null camera or at
    an index past the end of the collection, exactly in the three other
    cases. *)
Theorem Draw_defined (g : Game) :
  (Draw g <> None <->
   camera g <> None /\ lightCount g <= length (lights g) /\
   (entities g = [] \/ lights g <> [])) /\
  (Draw g = None <->
   camera g = None \/ length (lights g) < lightCount g \/
   (entities g <> [] /\ lights g = [])).
Proof.
  split; [apply Draw_runs_iff|]. split; [|apply Draw_None].
  intros HN.
  destruct (camera g) as [cam|] eqn:Ec; [|now left].
  destruct (le_lt_dec (lightCount g) (length (lights g))) as [Hle|Hlt]; [|now right; left].
  right; right.
  destruct (entities g) as [|ge ges] eqn:Ee.
  - exfalso. apply (proj2 (Draw_runs_iff g)); [|exact HN].
    rewrite Ec, Ee. repeat split; [discriminate|exact Hle|now left].
  - split; [discriminate|].
    destruct (lights g) as [|l ls] eqn:El; [reflexivity|].
    exfalso. apply (proj2 (Draw_runs_iff g)); [|exact HN].
    rewrite Ec, El. repeat split; [discriminate|exact Hle|right; discriminate].
Qed.

Lemma filter_present_entities (g : Game) (cam : Camera) (ges : list GameEntity) :
  filter is_present (flat_map (entity_calls g cam) ges) = [].
Proof.
  induction ges as [|ge ges IH]; [reflexivity|].
  cbn [flat_map]. rewrite filter_app, IH. reflexivity.
Qed.

Lemma filter_present_markers (g : Game) (ls : list Light) :
  filter is_present (flat_map (draw_light_marker g) ls) = [].
Proof.
  induction ls as [|l ls IH]; [reflexivity|].
  cbn [flat_map]. rewrite filter_app, IH. reflexivity.
Qed.

(** X6. Every frame that runs to its end presents the back buffer once,
    after every other call of the frame but one: the call that binds the
    render targets again, which is the frame's last. *)
Theorem Draw_presents_once (g : Game) (t : list Cmd) :
  Draw g = Some t ->
  exists before,
    t = before ++ [Present 0 0; OMSetRenderTargets] /\
    filter is_present before = [] /\
    length (filter is_present t) = 1.
Proof.
  intros HD. destruct (Draw_inv g HD) as (cam & _ & _ & _ & ->).
  exists (frame_clear ++ flat_map (entity_calls g cam) (entities g) ++
          light_marker_calls g cam ++ [Sky_Draw cam] ++ DrawUI ++
          [ImGui_Render; ImGui_ImplDX11_RenderDrawData]).
  assert (Hb : filter is_present
                 (frame_clear ++ flat_map (entity_calls g cam) (entities g) ++
                  light_marker_calls g cam ++ [Sky_Draw cam] ++ DrawUI ++
                  [ImGui_Render; ImGui_ImplDX11_RenderDrawData]) = []).
  { unfold light_marker_calls.
    rewrite !filter_app, filter_present_entities, filter_present_markers.
    reflexivity. }
  split; [|split; [exact Hb|]].
  - unfold frame_end. rewrite <- !app_assoc. reflexivity.
  - unfold light_marker_calls.
    rewrite !filter_app, filter_present_entities, filter_present_markers.
    reflexivity.
Qed.

Lemma running_Draw :
  Draw running =
  Some (frame_clear ++ flat_map (entity_calls running
          (mkCamera (mkFloat3 (F32.of_Z 0) (F32.of_Z 0) (F32.of_Z (-10)))
                    (F32.of_Z 3) (F32.of_Z 1) (F32.div (F32.of_Z 1280) (F32.of_Z 720))))
          (entities running) ++
        light_marker_calls running
          (mkCamera (mkFloat3 (F32.of_Z 0) (F32.of_Z 0) (F32.of_Z (-10)))
                    (F32.of_Z 3) (F32.of_Z 1) (F32.div (F32.of_Z 1280) (F32.of_Z 720))) ++
        [Sky_Draw
          (mkCamera (mkFloat3 (F32.of_Z 0) (F32.of_Z 0) (F32.of_Z (-10)))
                    (F32.of_Z 3) (F32.of_Z 1) (F32.div (F32.of_Z 1280) (F32.of_Z 720)))] ++
        DrawUI ++ frame_end).
Proof.
  destruct running_Drawable as (_ & Hne & Hle).
  exact (Draw_Some running running_camera Hne Hle).
Qed.

Lemma Draw_presents_once_witness :
  exists t, Draw running = Some t /\ length (filter is_present t) = 1.
Proof.
  eexists. split; [exact running_Draw|].
  destruct (Draw_presents_once running running_Draw) as (before & _ & _ & H1).
  exact H1.
Defined.

(** The passes of any frame that runs to its end. *)
Lemma Draw_passes (g : Game) (t : list Cmd) :
  Draw g = Some t ->
  passes t =
    [Clear; Clear] ++ repeat EntityPass (length (entities g)) ++
    repeat LightMarkerPass
           (count_type LIGHT_TYPE_POINT (firstn (lightCount g) (lights g))) ++
    [EnvironmentPass] ++ repeat OverlayPass 11 ++
    [DebugUIPass; DebugUIPass; PresentPass].
Proof.
  intros HD. destruct (Draw_inv g HD) as (cam & _ & _ & _ & ->).
  unfold light_marker_calls.
  rewrite !passes_app, passes_entities, passes_markers. reflexivity.
Qed.

Section Flushed.

Variable g : Game.

Let flushed_after_any := flushed_after_any g.

Lemma flushed_entities (cam : Camera) (ges : list GameEntity) (rest : list Cmd) :
  flushed_after_any rest ->
  flushed_after_any (flat_map (entity_calls g cam) ges ++ rest).
Proof.
  intros Hrest. induction ges as [|ge ges IH]; [exact Hrest|].
  intros p2 p1. cbn [flat_map entity_calls app draws_flushed andb].
  rewrite String.eqb_refl. cbn [andb String.eqb Ascii.eqb Bool.eqb].
  apply IH.
Qed.

Lemma flushed_markers (ls : list Light) (rest : list Cmd) :
  flushed_after_any rest ->
  flushed_after_any (flat_map (draw_light_marker g) ls ++ rest).
Proof.
  intros Hrest. induction ls as [|l ls IH]; [exact Hrest|].
  intros p2 p1. cbn [flat_map draw_light_marker app draws_flushed andb].
  rewrite !String.eqb_refl. cbn [andb]. apply IH.
Qed.

(** X7. In every frame that runs to its end, each draw comes right after
    the copy of the constants it uses: an entity is drawn right after
    the "perFrame" buffer of its material's pixel shader is copied, and
    a light's sphere right after all buffers of the marker's vertex
    shader and then of its pixel shader are copied. *)
Theorem Draw_flushes_before_drawing (t : list Cmd) :
  Draw g = Some t -> draws_flushed g None None t = true.
Proof.
  intros HD. destruct (Draw_inv g HD) as (cam & _ & _ & _ & ->).
  unfold light_marker_calls. rewrite <- !app_assoc.
  cbn [frame_clear app draws_flushed andb].
  apply flushed_entities. intros p2 p1.
  cbn [app draws_flushed andb].
  apply flushed_markers. intros q2 q1. reflexivity.
Qed.

End Flushed.

Lemma Draw_flushes_before_drawing_witness :
  exists t, Draw running = Some t /\ draws_flushed running None None t = true.
Proof.
  eexists. split; [exact running_Draw|].
  exact (Draw_flushes_before_drawing running running_Draw).
Defined.

(** X8. When lightCount is 3 or less, GenerateLights leaves the three
    directional lights and nothing else, and a frame pushes only the
    first lightCount of them to the shaders: none at all for a
    lightCount of 0. *)
Theorem GenerateLights_block_below_three {S} (rand : S -> Z * S) (g : Game) (s : S) :
  lightCount g <= 3 ->
  lights (fst (GenerateLights rand g s)) = [dir1; dir2; dir3] /\
  lights_block (fst (GenerateLights rand g s)) =
    Some (firstn (lightCount g) [dir1; dir2; dir3]).
Proof.
  intros HC.
  destruct (GenerateLights_lights rand g s) as (pts & Heq & _ & Hlen).
  assert (pts = []) by (destruct pts; [reflexivity|simpl in Hlen; lia]). subst pts.
  split; [exact Heq|].
  rewrite lights_block_Some.
  - now rewrite Heq, GenerateLights_lightCount.
  - rewrite Heq. discriminate.
  - rewrite Heq, GenerateLights_lightCount. exact HC.
Qed.

Lemma GenerateLights_block_below_three_witness :
  lightCount scene <= 3 /\
  lights_block (fst (GenerateLights lcg_rand scene 1%Z)) = Some [].
Proof.
  assert (H : lightCount scene <= 3) by (vm_compute; lia).
  split; [exact H|].
  exact (proj2 (GenerateLights_block_below_three lcg_rand scene 1%Z H)).
Defined.

(** ** Resize and start-up *)

Lemma OnResize_fields (g : Game) :
  let g' := fst (OnResize g) in
  width g' = width g /\ height g' = height g /\ sky g' = sky g /\
  lightCount g' = lightCount g /\ lights g' = lights g /\
  entities g' = entities g /\ lightMesh g' = lightMesh g /\
  lightVS g' = lightVS g /\ lightPS g' = lightPS g /\
  (camera g' = None <-> camera g = None).
Proof.
  unfold OnResize. destruct (camera g) eqn:E; cbn; rewrite ?E;
    repeat split; intros; congruence.
Qed.


Section StartUp.

Variable RngState : Type.
Variable rand : RngState -> Z * RngState.

Lemma Init_unfold (g : Game) (s : RngState) :
  fst (Init rand g s) =
  set_camera
    (Some (mkCamera (mkFloat3 (F32.of_Z 0) (F32.of_Z 0) (F32.of_Z (-10)))
                    (F32.of_Z 3) (F32.of_Z 1)
                    (F32.div (F32.of_Z (width g)) (F32.of_Z (height g)))))
    (fst (GenerateLights rand (set_lightCount 32 g) s)) /\
  snd (Init rand g s) = snd (GenerateLights rand (set_lightCount 32 g) s).
Proof.
  unfold Init, bind, ret.
  destruct (GenerateLights_shape rand (fun _ => True) (fun _ => I)
              (set_lightCount 32 g) s) as (pts & Heq & _ & _).
  destruct (GenerateLights rand (set_lightCount 32 g) s) as [g' s'].
  cbn [fst snd] in *. subst g'. split; reflexivity.
Qed.

(** X10. Whatever the scene that was loaded and whatever the random
    source, Init leaves a game whose frames can be drawn: a camera built
    for the aspect ratio width / height, 32 lights of which the first 3
    are directional and the other 29 are point lights, after 232 calls
    of rand(); the first frame runs to its end and draws 29 markers. *)
Theorem Init_drawable (g : Game) (s : RngState) :
  let g' := fst (Init rand g s) in
  option_map aspectRatio (camera g') =
    Some (F32.div (F32.of_Z (width g)) (F32.of_Z (height g))) /\
  lightCount g' = 32 /\
  map Type_ (lights g') =
    repeat LIGHT_TYPE_DIRECTIONAL 3 ++ repeat LIGHT_TYPE_POINT 29 /\
  snd (Init rand g s) = Nat.iter 232 (rand_state rand) s /\
  Drawable g' /\
  exists t, Draw g' = Some t /\
            length (filter (fun p => match p with LightMarkerPass => true | _ => false end)
                           (passes t)) = 29.
Proof.
  destruct (Init_unfold g s) as (Hg & Hs). cbv zeta. rewrite Hg, Hs.
  pose proof (GenerateLights_types rand (set_lightCount 32 g) s) as Hty.
  pose proof (GenerateLights_lightCount rand (set_lightCount 32 g) s) as Hc.
  pose proof (GenerateLights_length rand (set_lightCount 32 g) s) as Hlen.
  pose proof (GenerateLights_state rand (set_lightCount 32 g) s) as Hd.
  cbn [set_lightCount lightCount] in *.
  set (g1 := fst (GenerateLights rand (set_lightCount 32 g) s)) in *.
  assert (HD : Drawable (set_camera (Some (mkCamera
                  (mkFloat3 (F32.of_Z 0) (F32.of_Z 0) (F32.of_Z (-10)))
                  (F32.of_Z 3) (F32.of_Z 1)
                  (F32.div (F32.of_Z (width g)) (F32.of_Z (height g))))) g1)).
  { unfold Drawable. cbn [set_camera camera lights lightCount].
    split; [discriminate|]. split; [|lia].
    intros E. rewrite E in Hlen. simpl in Hlen. lia. }
  split; [reflexivity|]. split; [exact Hc|]. split; [exact Hty|].
  split; [exact Hd|]. split; [exact HD|].
  match type of HD with Drawable ?G => set (G1 := G) in * end.
  assert (Hrun : Draw G1 <> None)
    by (apply Draw_runs_iff; destruct HD as (H1 & H2 & H3); auto).
  destruct (Draw G1) as [t|] eqn:HDr; [|congruence].
  exists t. split; [reflexivity|].
  rewrite (Draw_passes _ HDr). unfold G1. cbn [set_camera entities lights lightCount].
  assert (Hn : count_type LIGHT_TYPE_POINT (firstn (lightCount g1) (lights g1)) = 29).
  { rewrite Hc, firstn_all2 by lia.
    rewrite count_type_map, Hty, filter_app, !filter_repeat. reflexivity. }
  rewrite Hn. cbn [filter]. rewrite !filter_app, !filter_repeat. reflexivity.
Qed.

(** X11. A resize right after Init, at the size Init saw, changes
    nothing: the camera was built for the aspect ratio the resize
    computes. *)
Theorem Init_then_OnResize (g : Game) (s : RngState) :
  fst (OnResize (fst (Init rand g s))) = fst (Init rand g s).
Proof.
  destruct (Init_unfold g s) as (Hg & _). rewrite Hg.
  rewrite (GenerateLights_frame rand (set_lightCount 32 g) s). reflexivity.
Qed.

End StartUp.

(** ** The debug UI *)

Lemma LightsImGui_type (ui : UserInput) (light : Light) (lightIndex : nat) :
  Type_ (LightsImGui ui light lightIndex) = Type_ light.
Proof.
  unfold LightsImGui.
  destruct (TreeNode ui ("Light " ++ to_string lightIndex)); [|reflexivity].
  destruct light as [ty d r p i c]. cbn [Type_]. destruct ty; reflexivity.
Qed.

(** X12. The light editor never changes the type of a light, never
    touches the range or the position of a directional light nor the
    direction of a point light, and leaves a light whose tree node is
    closed exactly as it was. *)
Theorem LightsImGui_keeps (ui : UserInput) (light : Light) (lightIndex : nat) :
  let light' := LightsImGui ui light lightIndex in
  Type_ light' = Type_ light /\
  (Type_ light = LIGHT_TYPE_DIRECTIONAL ->
   Range light' = Range light /\ Position light' = Position light) /\
  (Type_ light = LIGHT_TYPE_POINT -> Direction light' = Direction light) /\
  (TreeNode ui ("Light " ++ to_string lightIndex) = false -> light' = light).
Proof.
  cbv zeta. unfold LightsImGui.
  destruct (TreeNode ui ("Light " ++ to_string lightIndex)).
  - destruct light as [ty d r p i c]. cbn [Type_].
    destruct ty;
      cbn [Type_ Direction Range Position
           set_Direction set_Range set_Position set_Intensity set_Color];
      repeat split; intros; congruence.
  - repeat split; intros; congruence.
Qed.

Lemma LightsImGui_loop_types (ui : UserInput) (ls : list Light) :
  forall i, map Type_ (LightsImGui_loop ui i ls) = map Type_ ls.
Proof.
  induction ls as [|l ls IH]; intros i; [reflexivity|].
  cbn [LightsImGui_loop map]. rewrite IH.
  now rewrite LightsImGui_type.
Qed.

Lemma EntityImGui_loop_assets (ui : UserInput) (ges : list GameEntity) :
  forall i sc,
    map mesh (fst (EntityImGui_loop ui i ges sc)) = map mesh ges /\
    map material (fst (EntityImGui_loop ui i ges sc)) = map material ges.
Proof.
  induction ges as [|ge ges IH]; intros i sc; [split; reflexivity|].
  cbn [EntityImGui_loop].
  specialize (IH (S i)
    (fun j => if j =? i
              then GetScale (EntityImGui ui (mkTransform (position ge) (sc i)) i)
              else sc j)).
  destruct (EntityImGui_loop ui (S i) ges _) as [ges'' sc'].
  cbn [fst map mesh material] in *. destruct IH as [-> ->]. split; reflexivity.
Qed.

Lemma UpdateImGuiWorldEditor_lights (ui : UserInput) (ses : Session) :
  map Type_ (lights (game (UpdateImGuiWorldEditor ui ses))) =
    map Type_ (lights (game ses)) /\
  lightCount (game (UpdateImGuiWorldEditor ui ses)) = lightCount (game ses) /\
  camera (game (UpdateImGuiWorldEditor ui ses)) = camera (game ses).
Proof.
  unfold UpdateImGuiWorldEditor.
  destruct (EntityImGui_loop ui 0 (entities (game ses)) (scales ses)) as [ges sc].
  pose proof (LightsImGui_loop_types ui (lights (game ses)) 0) as Hty.
  destruct (CollapsingHeader ui "Entities"), (CollapsingHeader ui "Lights");
    cbn [game set_game set_lights set_entities lights lightCount camera];
    repeat split; assumption.
Qed.

Lemma UpdateImGuiWorldEditor_entities (ui : UserInput) (ses : Session) :
  map mesh (entities (game (UpdateImGuiWorldEditor ui ses))) =
    map mesh (entities (game ses)) /\
  map material (entities (game (UpdateImGuiWorldEditor ui ses))) =
    map material (entities (game ses)).
Proof.
  unfold UpdateImGuiWorldEditor.
  destruct (EntityImGui_loop_assets ui (entities (game ses)) 0 (scales ses)) as [Hm Hmat].
  destruct (EntityImGui_loop ui 0 (entities (game ses)) (scales ses)) as [ges sc].
  cbn [fst] in *.
  destruct (CollapsingHeader ui "Entities"), (CollapsingHeader ui "Lights");
    cbn [game set_game set_lights set_entities entities];
    split; auto.
Qed.

Lemma map_eq_length {A B} (f : A -> B) (l1 l2 : list A) :
  map f l1 = map f l2 -> length l1 = length l2.
Proof. intros H. rewrite <- (length_map f l1), H. apply length_map. Qed.


Section FrameLoop.

Variable RngState : Type.
Variable rand : RngState -> Z * RngState.

Lemma GenerateLights_by_lightCount (g1 g2 : Game) (s : RngState) :
  lightCount g1 = lightCount g2 ->
  lights (fst (GenerateLights rand g1 s)) = lights (fst (GenerateLights rand g2 s)) /\
  snd (GenerateLights rand g1 s) = snd (GenerateLights rand g2 s).
Proof.
  intros Hc. unfold GenerateLights, bind, ret. rewrite Hc.
  destruct (fill_lights rand _ _ _ s) as [ls s']. split; reflexivity.
Qed.

Lemma edited_keeps (ui : UserInput) (ses : Session) :
  map Type_ (lights (game (edited ui ses))) = map Type_ (lights (game ses)) /\
  lightCount (game (edited ui ses)) = lightCount (game ses) /\
  camera (game (edited ui ses)) = camera (game ses) /\
  length (entities (game (edited ui ses))) = length (entities (game ses)).
Proof.
  unfold edited.
  destruct (showWorldEditor (UpdateImGuiWindowManager ui ses)).
  - destruct (UpdateImGuiWorldEditor_lights ui (UpdateImGuiWindowManager ui ses))
      as (H1 & H3 & H4).
    pose proof (map_eq_length _ _ _
                  (proj1 (UpdateImGuiWorldEditor_entities ui
                            (UpdateImGuiWindowManager ui ses)))) as H7.
    cbn [UpdateImGuiWindowManager game] in *. auto.
  - cbn [UpdateImGuiWindowManager game]. auto.
Qed.

Lemma Update_unfold (ui : UserInput) (ses : Session) (s : RngState) :
  Update rand ui ses s =
  match camera (game (edited ui ses)) with
  | None => (None, s)
  | Some c =>
      let ses1 := set_game (set_camera (Some (Camera_Update ui c))
                                       (game (edited ui ses))) (edited ui ses) in
      let ses2 := if KeyDown_ESCAPE ui then Quit ses1 else ses1 in
      if KeyPress_TAB ui then
        (Some (set_game (fst (GenerateLights rand (game ses2) s)) ses2),
         snd (GenerateLights rand (game ses2) s))
      else (Some ses2, s)
  end.
Proof.
  unfold Update, edited. cbv zeta.
  destruct (camera _); [|reflexivity].
  destruct (KeyPress_TAB ui); [|reflexivity].
  unfold bind, ret. now destruct (GenerateLights rand _ s).
Qed.

Lemma Update_None_camera (ui : UserInput) (ses : Session) (s : RngState) :
  fst (Update rand ui ses s) = None -> camera (game ses) = None.
Proof.
  rewrite Update_unfold. destruct (edited_keeps ui ses) as (_ & _ & Hc & _).
  rewrite Hc. destruct (camera (game ses)); [|reflexivity].
  cbv zeta. destruct (KeyPress_TAB ui); cbn [fst]; discriminate.
Qed.

(** What an update that runs to its end leaves. *)
Lemma Update_result (ui : UserInput) (ses ses' : Session) (s : RngState) :
  fst (Update rand ui ses s) = Some ses' ->
  camera (game ses') <> None /\
  lightCount (game ses') = lightCount (game ses) /\
  length (entities (game ses')) = length (entities (game ses)) /\
  if KeyPress_TAB ui then
    lights (game ses') = lights (fst (GenerateLights rand (game ses) s)) /\
    snd (Update rand ui ses s) = snd (GenerateLights rand (game ses) s)
  else
    map Type_ (lights (game ses')) = map Type_ (lights (game ses)) /\
    snd (Update rand ui ses s) = s.
Proof.
  rewrite Update_unfold.
  destruct (edited_keeps ui ses) as (Hty & Hc & Hcam & He).
  set (ed := edited ui ses) in *.
  destruct (camera (game ed)) as [c|] eqn:Ec; [|cbn [fst]; discriminate].
  cbv zeta.
  set (ses2 := if KeyDown_ESCAPE ui
               then Quit (set_game (set_camera (Some (Camera_Update ui c)) (game ed)) ed)
               else set_game (set_camera (Some (Camera_Update ui c)) (game ed)) ed).
  assert (Hg : game ses2 = set_camera (Some (Camera_Update ui c)) (game ed))
    by (unfold ses2; destruct (KeyDown_ESCAPE ui); reflexivity).
  destruct (KeyPress_TAB ui); cbn [fst snd]; intros H; apply Some_inj in H; subst ses'.
  - cbn [set_game game].
    assert (Hc2 : lightCount (game ses2) = lightCount (game ses))
      by (rewrite Hg; exact Hc).
    destruct (GenerateLights_by_lightCount (game ses2) (game ses) s Hc2) as (Hl & Hs).
    rewrite (GenerateLights_frame rand (game ses2) s).
    cbn [set_lights camera lightCount entities lights].
    split; [rewrite Hg; discriminate|]. split; [exact Hc2|].
    split; [rewrite Hg; exact He|]. split; [exact Hl|exact Hs].
  - rewrite Hg. cbn [set_camera camera lightCount lights entities].
    split; [discriminate|]. repeat split; assumption.
Qed.

(** X14. An update stops at the camera's own update exactly when there
    is no camera: nothing the editors do makes or removes one. *)
Theorem Update_defined (ui : UserInput) (ses : Session) (s : RngState) :
  fst (Update rand ui ses s) = None <-> camera (game ses) = None.
Proof.
  rewrite Update_unfold. destruct (edited_keeps ui ses) as (_ & _ & Hc & _).
  rewrite Hc. destruct (camera (game ses)); cbv zeta.
  - destruct (KeyPress_TAB ui); cbn [fst]; split; discriminate.
  - split; reflexivity.
Qed.

End FrameLoop.

(** Two games with the same light types, light count and number of
    entities, and both with or both without a camera, draw the same
    passes. *)
Lemma Draw_passes_congr (g1 g2 : Game) :
  map Type_ (lights g1) = map Type_ (lights g2) ->
  lightCount g1 = lightCount g2 ->
  length (entities g1) = length (entities g2) ->
  (camera g1 = None <-> camera g2 = None) ->
  option_map passes (Draw g1) = option_map passes (Draw g2).
Proof.
  intros Hty Hc He Hcam.
  assert (Hlen : length (lights g1) = length (lights g2))
    by (rewrite <- (length_map Type_ (lights g1)), Hty; apply length_map).
  assert (Hcount : count_type LIGHT_TYPE_POINT (firstn (lightCount g1) (lights g1)) =
                   count_type LIGHT_TYPE_POINT (firstn (lightCount g2) (lights g2)))
    by (rewrite !count_type_map, <- !firstn_map, Hty, Hc; reflexivity).
  assert (Hdef : Draw g1 <> None <-> Draw g2 <> None).
  { rewrite !Draw_runs_iff, Hc, Hlen.
    assert (H1 : entities g1 = [] <-> entities g2 = [])
      by (destruct (entities g1), (entities g2); simpl in He; split; congruence).
    assert (H2 : lights g1 <> [] <-> lights g2 <> [])
      by (destruct (lights g1), (lights g2); simpl in Hlen; split; congruence).
    tauto. }
  destruct (Draw g1) as [t1|] eqn:E1, (Draw g2) as [t2|] eqn:E2.
  - cbn [option_map]. rewrite (Draw_passes _ E1), (Draw_passes _ E2), Hcount, He.
    reflexivity.
  - exfalso. apply (proj1 Hdef); congruence.
  - exfalso. apply (proj2 Hdef); congruence.
  - reflexivity.
Qed.

Section FrameLoopSafety.

Variable RngState : Type.
Variable rand : RngState -> Z * RngState.

(** X15. An update in which TAB is not pressed makes no call of rand()
    and cannot change which draws the next frame makes: whatever is
    edited, the frame has the same passes as before the update. *)
Theorem Update_keeps_passes (ui : UserInput) (ses ses' : Session) (s : RngState) :
  KeyPress_TAB ui = false ->
  fst (Update rand ui ses s) = Some ses' ->
  snd (Update rand ui ses s) = s /\
  map Type_ (lights (game ses')) = map Type_ (lights (game ses)) /\
  lightCount (game ses') = lightCount (game ses) /\
  option_map passes (Draw (game ses')) = option_map passes (Draw (game ses)).
Proof.
  intros Htab EU.
  destruct (@Update_result _ rand ui ses ses' s EU) as (Hcam & Hc & He & Hrest).
  rewrite Htab in Hrest. destruct Hrest as (Hty & Hs).
  split; [exact Hs|]. split; [exact Hty|]. split; [exact Hc|].
  apply Draw_passes_congr; auto.
  split; [intros E; contradiction|].
  intros E. exfalso.
  assert (HN : fst (Update rand ui ses s) <> None) by congruence.
  apply HN. rewrite Update_unfold.
  destruct (edited_keeps ui ses) as (_ & _ & Hed & _). rewrite Hed, E. reflexivity.
Qed.

(** X16. An update in which TAB is pressed regenerates the lights after
    the editors have run, so what was edited on the lights in that frame
    is lost: the lights are those GenerateLights gives from the game as
    it was before the update. *)
Theorem Update_TAB_regenerates (ui : UserInput) (ses ses' : Session) (s : RngState) :
  KeyPress_TAB ui = true ->
  fst (Update rand ui ses s) = Some ses' ->
  lights (game ses') = lights (fst (GenerateLights rand (game ses) s)) /\
  lightCount (game ses') = lightCount (game ses) /\
  snd (Update rand ui ses s) = snd (GenerateLights rand (game ses) s).
Proof.
  intros Htab EU.
  destruct (@Update_result _ rand ui ses ses' s EU) as (_ & Hc & _ & Hrest).
  rewrite Htab in Hrest. destruct Hrest as (Hl & Hs).
  split; [exact Hl|]. split; [exact Hc|exact Hs].
Qed.

Lemma handle_Drawable (e : Event) (ses : Session) (s : RngState) :
  Drawable (game ses) ->
  exists ses', fst (handle rand e ses s) = Some ses' /\
               Drawable (game ses') /\
               lightCount (game ses') = lightCount (game ses).
Proof.
  intros (Hcam & Hne & Hle). destruct e as [ui|w h]; cbn [handle].
  - destruct (fst (Update rand ui ses s)) as [ses'|] eqn:EU.
    2:{ apply Update_None_camera in EU. contradiction. }
    exists ses'. split; [reflexivity|].
    destruct (@Update_result _ rand ui ses ses' s EU) as (Hcam' & Hc & _ & Hrest).
    split; [|exact Hc]. unfold Drawable. rewrite Hc.
    split; [exact Hcam'|].
    destruct (KeyPress_TAB ui).
    + destruct Hrest as (Hl & _).
      pose proof (GenerateLights_length rand (game ses) s) as Hlen.
      rewrite Hl. split; [|lia].
      intros E. rewrite E in Hlen. cbn [length] in Hlen. lia.
    + destruct Hrest as (Hty & _).
      pose proof (map_eq_length _ _ _ Hty) as Hlen. rewrite Hlen.
      split; [|exact Hle].
      intros E. rewrite E in Hlen. cbn [length] in Hlen.
      destruct (lights (game ses)); [congruence|discriminate].
  - unfold ret. cbn [fst]. eexists. split; [reflexivity|].
    cbn [set_game game].
    destruct (OnResize_fields (set_size w h (game ses)))
      as (_ & _ & _ & Hc & Hl & _ & _ & _ & _ & Hn).
    cbv zeta in *. cbn [set_size lights lightCount camera] in *.
    split; [|exact Hc]. unfold Drawable. rewrite Hc, Hl.
    split; [|split; assumption]. intros E. apply Hcam. now apply Hn.
Qed.

(** X17. Once the game can draw a frame, it can draw every later one:
    whatever the updates (edits in the debug UI, regenerations with TAB,
    ESC, camera moves) and the resizes that follow, in any number and
    order, no update stops at a null camera, the light count stays what
    it was, and the frame after them runs to its end. *)
Theorem frames_stay_drawable (es : list Event) :
  forall (ses : Session) (s : RngState),
    Drawable (game ses) ->
    exists ses',
      fst (handle_all rand es ses s) = Some ses' /\
      Drawable (game ses') /\
      lightCount (game ses') = lightCount (game ses) /\
      Draw (game ses') <> None.
Proof.
  induction es as [|e es IH]; intros ses s HD.
  - exists ses. cbn [handle_all]. unfold ret. cbn [fst].
    repeat split; try apply HD.
    apply Draw_runs_iff. destruct HD as (H1 & H2 & H3). auto.
  - cbn [handle_all]. unfold bind.
    destruct (handle_Drawable e ses s HD) as (ses1 & H1 & HD1 & Hc1).
    destruct (handle rand e ses s) as [r s1]. cbn [fst] in H1. subst r.
    destruct (IH ses1 s1 HD1) as (ses' & H & HD' & Hc' & Hdraw).
    exists ses'. repeat split; try assumption; try apply HD'. congruence.
Qed.

End FrameLoopSafety.

Lemma session_running_camera : camera (game (session_of running)) <> None.
Proof.
  change (camera running <> None). rewrite running_camera. discriminate.
Qed.

Lemma Update_keeps_passes_witness :
  KeyPress_TAB idle = false /\
  exists ses',
    fst (Update lcg_rand idle (session_of running) 7%Z) = Some ses' /\
    snd (Update lcg_rand idle (session_of running) 7%Z) = 7%Z.
Proof.
  split; [reflexivity|].
  destruct (fst (Update lcg_rand idle (session_of running) 7%Z)) as [ses'|] eqn:E.
  - exists ses'. split; [reflexivity|].
    exact (proj1 (Update_keeps_passes lcg_rand idle (session_of running) 7%Z eq_refl E)).
  - exfalso. apply Update_None_camera in E. exact (session_running_camera E).
Defined.

Lemma Update_TAB_regenerates_witness :
  KeyPress_TAB busy = true /\
  exists ses',
    fst (Update lcg_rand busy (session_of running) 7%Z) = Some ses' /\
    lightCount (game ses') = lightCount running.
Proof.
  split; [reflexivity|].
  destruct (fst (Update lcg_rand busy (session_of running) 7%Z)) as [ses'|] eqn:E.
  - exists ses'. split; [reflexivity|].
    destruct (Update_TAB_regenerates lcg_rand busy (session_of running) 7%Z eq_refl E)
      as (_ & Hc & _).
    exact Hc.
  - exfalso. apply Update_None_camera in E. exact (session_running_camera E).
Defined.

Lemma session_running_Drawable : Drawable (game (session_of running)).
Proof. change (Drawable running). exact running_Drawable. Qed.

Lemma frames_stay_drawable_witness :
  Drawable (game (session_of running)) /\
  exists ses',
    fst (handle_all lcg_rand [Frame_Update busy; Resized 800 600; Frame_Update idle]
                    (session_of running) 7%Z) = Some ses' /\
    Draw (game ses') <> None.
Proof.
  split; [exact session_running_Drawable|].
  destruct (frames_stay_drawable lcg_rand
              [Frame_Update busy; Resized 800 600; Frame_Update idle]
              (session_of running) 7%Z session_running_Drawable)
    as (ses' & H & _ & _ & HD).
  exists ses'. split; assumption.
Defined.
